(** * igdb: URL construction, transport and entity accessors

    A shallow embedding of the Go package [igdb] (igdb.go, game.go, the
    feed and endpoint files) together with the properties its description
    states about URL building, option validation and error classification.

    Conventions of the embedding:
    - a Go [string] is a [string] of 8-bit characters, a Go [int] is a [Z];
    - a Go function returning [(T, error)] returns an [outcome T];
      a run-time panic is the third constructor of [outcome];
    - code that reaches the HTTP client runs in the monad [M], whose state is
      the trace of requests handed to [http.Client.Do]. *)

From Stdlib Require Import ZArith String Ascii List Bool Lia.
From Stdlib Require Import DecimalString DecimalZ.
Import ListNotations.

Set Warnings "-register-all,-notation-for-abbreviation".

Open Scope string_scope.
Open Scope Z_scope.

(** ** Errors and outcomes *)

(** The error values the package hands to its callers.  [ErrNegativeID] is
    declared in igdb.go; [ErrEmptyIDs], [ErrNoResults], [ErrOutOfRange] and
    [errInvalidJSON] are the sentinels the test-suite compares against; the
    remaining constructors stand for errors produced by the Go libraries the
    package calls ([encoding/json], [net/http], [io/ioutil]). *)
Inductive error : Type :=
| ErrNegativeID
| ErrEmptyIDs
| ErrNoResults
| ErrOutOfRange
| errInvalidJSON
| SyntaxError                          (* *json.SyntaxError *)
| UnmarshalTypeError (value : string)  (* *json.UnmarshalTypeError *)
| LibError (msg : string).             (* net/http, io and status errors *)

Inductive outcome (A : Type) : Type :=
| Ok (a : A)
| Err (e : error)
| Panic (msg : string).

Arguments Ok {A} a.
Arguments Err {A} e.
Arguments Panic {A} msg.

Definition outcome_map {A B} (f : A -> B) (o : outcome A) : outcome B :=
  match o with
  | Ok a => Ok (f a)
  | Err e => Err e
  | Panic m => Panic m
  end.

(** ** Strings *)

Definition space : ascii := " "%char.

(** [strings.Replace(s, " ", "", -1)]: every occurrence of the one-byte
    string [old] is dropped. *)
Fixpoint removeAll (old : ascii) (s : string) : string :=
  match s with
  | EmptyString => EmptyString
  | String c s' =>
      if Ascii.eqb c old then removeAll old s' else String c (removeAll old s')
  end.

(** Membership of a byte in a string, as a boolean. *)
Fixpoint contains (c : ascii) (s : string) : bool :=
  match s with
  | EmptyString => false
  | String c' s' => Ascii.eqb c' c || contains c s'
  end.

(** Lexical order of a list of strings, as [sort.Strings] leaves it. *)
Fixpoint sorted_lex (l : list string) : bool :=
  match l with
  | [] => true
  | x :: rest =>
      match rest with
      | [] => true
      | y :: _ => String.leb x y && sorted_lex rest
      end
  end.

(** [strconv.Itoa]: the decimal representation, with a leading minus sign
    for negative numbers. *)
Definition Itoa (i : Z) : string := NilZero.string_of_int (Z.to_int i).

(** [strconv.Atoi] restricted to what [Itoa] prints; used to state that
    [Itoa] loses nothing. *)
Definition Atoi (s : string) : option Z :=
  option_map Z.of_int (NilZero.int_of_string s).

(** Whether every byte of a string satisfies a test. *)
Fixpoint string_forallb (p : ascii -> bool) (s : string) : bool :=
  match s with
  | EmptyString => true
  | String c s' => p c && string_forallb p s'
  end.

(** The last byte of a string. *)
Fixpoint last_byte (s : string) : option ascii :=
  match s with
  | EmptyString => None
  | String c EmptyString => Some c
  | String _ s' => last_byte s'
  end.

(** Whether the strings of a list are pairwise different. *)
Fixpoint distinctb (l : list string) : bool :=
  match l with
  | [] => true
  | x :: rest => negb (existsb (String.eqb x) rest) && distinctb rest
  end.

(** The decimal digits. *)
Definition isDigit (c : ascii) : bool :=
  let n := N_of_ascii c in ((48 <=? n) && (n <=? 57))%N.

Definition comma : ascii := ","%char.

(** [strings.Split(s, sep)] for a one-byte separator: the pieces between
    the separators, the empty string giving one empty piece. *)
Fixpoint splitOn (sep : ascii) (s : string) : list string :=
  match s with
  | EmptyString => [EmptyString]
  | String c s' =>
      if Ascii.eqb c sep then EmptyString :: splitOn sep s'
      else
        match splitOn sep s' with
        | [] => [String c EmptyString]
        | w :: ws => String c w :: ws
        end
  end.

(** All the values of a list of optional values, if none is missing. *)
Fixpoint sequence {A} (l : list (option A)) : option (list A) :=
  match l with
  | [] => Some []
  | Some a :: rest => option_map (cons a) (sequence rest)
  | None :: _ => None
  end.

(** The reader of what [intsToCommaString] below writes: the empty string
    is the empty list, anything else is split at the commas and each piece
    read as a decimal number. *)
Definition commaStringToInts (s : string) : option (list Z) :=
  if String.eqb s "" then Some []
  else sequence (map Atoi (splitOn comma s)).

(** ** igdb.go: helpers *)

(** igdbURL is the base URL for the IGDB API. *)
Definition igdbURL : string := "https://api-2445582011268.apicast.io/".

(** intsToStrings returns the slice of strings equivalent to the list of
    ints.  The loop appends one element per iteration. *)
Fixpoint intsToStrings_loop (str : list string) (ints : list Z) : list string :=
  match ints with
  | [] => str
  | i :: rest => intsToStrings_loop (str ++ [Itoa i]) rest
  end.

Definition intsToStrings (ints : list Z) : list string :=
  intsToStrings_loop [] ints.

(** [strings.Join]. *)
Definition Join (elems : list string) (sep : string) : string :=
  String.concat sep elems.

(** intsToCommaString returns a comma separated list of ints as a single
    string. *)
Definition intsToCommaString (ints : list Z) : string :=
  let s := intsToStrings ints in
  Join s ",".

(** Encoder is implemented by any value that has an Encode method. *)
Class Encoder (E : Type) : Type := Encode : E -> string.

(** encodeURL encodes the url with the query parameters provided by the
    encoder. *)
Definition encodeURL {E : Type} `{Encoder E} (enc : E) (url : string) : string :=
  let url := removeAll space url in
  let values := Encode enc in
  if String.eqb values "" then url else url ++ "?" ++ values.

(** The query part [encodeURL] appends for an encoder. *)
Definition query {E : Type} `{Encoder E} (enc : E) : string :=
  if String.eqb (Encode enc) "" then "" else "?" ++ Encode enc.

(** An encoder that prints a fixed string. *)
Record constEncoder : Type := { constValue : string }.

#[global] Instance constEncoder_Encoder : Encoder constEncoder := constValue.

(** ** JSON values and [json.Unmarshal] *)

(** A parsed JSON document.  Numbers are the integer literals; the entity
    decoders, which are parameters below, see the whole value. *)
Inductive json : Type :=
| JNull
| JBool (b : bool)
| JNum (n : Z)
| JStr (s : string)
| JArr (elems : list json)
| JObj (members : list (string * json)).

(** The name [encoding/json] prints for a value that does not fit the
    destination. *)
Definition json_kind (j : json) : string :=
  match j with
  | JNull => "null"
  | JBool _ => "bool"
  | JNum _ => "number"
  | JStr _ => "string"
  | JArr _ => "array"
  | JObj _ => "object"
  end.

(** The value of a member of an object, if present. *)
Fixpoint member (k : string) (ms : list (string * json)) : option json :=
  match ms with
  | [] => None
  | (k', v) :: rest => if String.eqb k k' then Some v else member k rest
  end.

(** A decoder for one destination type: what [json.Unmarshal] stores in a
    destination of that type (starting from its zero value) for a parsed
    document, or the error it reports. *)
Definition decoder (A : Type) : Type := json -> outcome A.

(** Destination [[]T]: an array decodes element by element, [null] leaves
    the nil slice, anything else is a type error. *)
Fixpoint decode_elems {A} (d : decoder A) (l : list json) : outcome (list A) :=
  match l with
  | [] => Ok []
  | j :: rest =>
      match d j with
      | Ok a => outcome_map (cons a) (decode_elems d rest)
      | Err e => Err e
      | Panic m => Panic m
      end
  end.

Definition decode_slice {A} (d : decoder A) : decoder (list A) :=
  fun j =>
    match j with
    | JArr l => decode_elems d l
    | JNull => Ok []
    | _ => Err (UnmarshalTypeError (json_kind j))
    end.

(** Destination [*T]: [null] stores the nil pointer ([None]). *)
Definition decode_ptr {A} (d : decoder A) : decoder (option A) :=
  fun j =>
    match j with
    | JNull => Ok None
    | _ => outcome_map Some (d j)
    end.

(** The range of a Go [int] on a 64-bit platform. *)
Definition MinInt64 : Z := -9223372036854775808.
Definition MaxInt64 : Z := 9223372036854775807.

Definition inInt64 (n : Z) : bool := (MinInt64 <=? n) && (n <=? MaxInt64).

(** Destination [int]: a number that fits is stored, one that does not is a
    type error, [null] leaves the zero value. *)
Definition decode_int : decoder Z :=
  fun j =>
    match j with
    | JNum n => if inInt64 n then Ok n else Err (UnmarshalTypeError "number")
    | JNull => Ok 0
    | _ => Err (UnmarshalTypeError (json_kind j))
    end.

(** Destination [string]: [null] leaves the zero value. *)
Definition decode_string : decoder string :=
  fun j =>
    match j with
    | JStr s => Ok s
    | JNull => Ok ""
    | _ => Err (UnmarshalTypeError (json_kind j))
    end.

(** ** HTTP requests, responses and the client *)

(** A request.  [Header] stands for the map [http.Header] from canonical
    keys to the values added under them; it holds each key once, and no
    statement below depends on the order of its keys. *)
Record Request : Type := {
  Method : string;
  reqURL : string;
  Header : list (string * list string)
}.

(** A response: the status code and what reading the whole body yields. *)
Record Response : Type := {
  StatusCode : Z;
  Body : outcome string
}.

(** Client wraps a typical http.Client: [http] answers a request with a
    response or a transport error. *)
Record Client : Type := {
  http : Request -> outcome Response;
  rootURL : string
}.

(** NewClient returns a new client over the given HTTP client. *)
Definition NewClient (DefaultClient : Request -> outcome Response) : Client :=
  {| http := DefaultClient; rootURL := igdbURL |}.

(** ** The request monad *)

(** Computations that may call [http.Client.Do].  The state is the list of
    requests handed to it so far, oldest first. *)
Definition M (A : Type) : Type := list Request -> outcome A * list Request.

Definition ret {A} (a : A) : M A := fun tr => (Ok a, tr).

Definition bind {A B} (m : M A) (k : A -> M B) : M B :=
  fun tr =>
    match m tr with
    | (Ok a, tr') => k a tr'
    | (Err e, tr') => (Err e, tr')
    | (Panic p, tr') => (Panic p, tr')
    end.

(** A computation that touches no state. *)
Definition lift {A} (o : outcome A) : M A := fun tr => (o, tr).

Notation "x <- m ;; k" := (bind m (fun x => k))
  (at level 61, m at next level, right associativity).

(** [c.http.Do(req)]: the one place where the network is reached. *)
Definition Do (c : Client) (req : Request) : M Response :=
  fun tr => (http c req, (tr ++ [req])%list).

(** Indexing a slice: [s[i]] panics when [i] is out of range. *)
Definition index {A} (s : list A) (i : nat) : outcome A :=
  match nth_error s i with
  | Some a => Ok a
  | None => Panic "index out of range"
  end.

(** ** Endpoints *)

Definition endpoint : Type := string.

Definition CharacterEndpoint : endpoint := "characters/".
Definition CollectionEndpoint : endpoint := "collections/".
Definition CompanyEndpoint : endpoint := "companies/".
Definition CreditEndpoint : endpoint := "credits/".
Definition EngineEndpoint : endpoint := "game_engines/".
Definition FeedEndpoint : endpoint := "feeds/".
Definition FranchiseEndpoint : endpoint := "franchises/".
Definition GameEndpoint : endpoint := "games/".
Definition GameModeEndpoint : endpoint := "game_modes/".
Definition GenreEndpoint : endpoint := "genres/".
Definition KeywordEndpoint : endpoint := "keywords/".
Definition PageEndpoint : endpoint := "pages/".
Definition PersonEndpoint : endpoint := "people/".
Definition PlatformEndpoint : endpoint := "platforms/".
Definition PerspectiveEndpoint : endpoint := "player_perspectives/".
Definition PulseEndpoint : endpoint := "pulses/".
Definition PulseGroupEndpoint : endpoint := "pulse_groups/".
Definition PulseSourceEndpoint : endpoint := "pulse_sources".
Definition ReleaseDateEndpoint : endpoint := "release_dates/".
Definition ReviewEndpoint : endpoint := "reviews/".
Definition ThemeEndpoint : endpoint := "themes/".
Definition TitleEndpoint : endpoint := "titles/".

Definition endpoints : list endpoint :=
  [ CharacterEndpoint; CollectionEndpoint; CompanyEndpoint; CreditEndpoint;
    EngineEndpoint; FeedEndpoint; FranchiseEndpoint; GameEndpoint;
    GameModeEndpoint; GenreEndpoint; KeywordEndpoint; PageEndpoint;
    PersonEndpoint; PlatformEndpoint; PerspectiveEndpoint; PulseEndpoint;
    PulseGroupEndpoint; PulseSourceEndpoint; ReleaseDateEndpoint;
    ReviewEndpoint; ThemeEndpoint; TitleEndpoint ].

(** ** The option model *)

Module Options.

(** Modelled from the spec: the option model ([Option], [OptionSet], its
    finalization [newOpt] and its query encoding).  The Go file that declares
    [OptionFunc], [newOpt], [optSearch] and the option constructors is not
    among the sources; what follows is the model of sections 3, 4.1 and 6 of
    the description. *)

(** The closed set of filter operators. *)
Inductive operator : Type :=
| OpEquals
| OpNotEquals
| OpGreaterThan
| OpGreaterThanEqual
| OpLessThan
| OpLessThanEqual
| OpPrefix.

Inductive direction : Type := Ascending | Descending.

(** A single configuration directive. *)
Inductive Option : Type :=
| SetFields (names : list string)
| SetFilter (field : string) (op : operator) (value : string)
| SetOrder (field : string) (dir : direction)
| SetLimit (n : Z)
| SetOffset (n : Z)
| SetSearch (qry : string).

(** The accumulated result of applying options to the base configuration. *)
Record OptionSet : Type := {
  fields : list string;
  filters : list (string * operator * string);
  order : option (string * direction);
  limit : option Z;
  offset : option Z;
  search : option string
}.

Definition base : OptionSet :=
  {| fields := []; filters := []; order := None;
     limit := None; offset := None; search := None |}.

(** Field names are kept once, in the order in which they first came. *)
Fixpoint add_fields (names : list string) (acc : list string) : list string :=
  match names with
  | [] => acc
  | n :: rest =>
      if existsb (String.eqb n) acc then add_fields rest acc
      else add_fields rest (acc ++ [n])
  end.

(** One directive applied to the builder: fields and filters accumulate;
    order, limit, offset and search keep the last value written. *)
Definition apply (s : OptionSet) (o : Option) : OptionSet :=
  match o with
  | SetFields names =>
      {| fields := add_fields names (fields s); filters := filters s;
         order := order s; limit := limit s; offset := offset s;
         search := search s |}
  | SetFilter f op v =>
      {| fields := fields s; filters := (filters s ++ [(f, op, v)])%list;
         order := order s; limit := limit s; offset := offset s;
         search := search s |}
  | SetOrder f d =>
      {| fields := fields s; filters := filters s;
         order := Some (f, d); limit := limit s; offset := offset s;
         search := search s |}
  | SetLimit n =>
      {| fields := fields s; filters := filters s;
         order := order s; limit := Some n; offset := offset s;
         search := search s |}
  | SetOffset n =>
      {| fields := fields s; filters := filters s;
         order := order s; limit := limit s; offset := Some n;
         search := search s |}
  | SetSearch q =>
      {| fields := fields s; filters := filters s;
         order := order s; limit := limit s; offset := offset s;
         search := Some q |}
  end.

Definition build (opts : list Option) : OptionSet := fold_left apply opts base.

(** Whether a directive writes the limit, the offset. *)
Definition sets_limit (o : Option) : bool :=
  match o with SetLimit _ => true | _ => false end.

Definition sets_offset (o : Option) : bool :=
  match o with SetOffset _ => true | _ => false end.

(** The limit must lie in [1, 50]. *)
Definition limit_ok (s : OptionSet) : bool :=
  match limit s with
  | Some n => (1 <=? n) && (n <=? 50)
  | None => true
  end.

(** The offset must be non-negative. *)
Definition offset_ok (s : OptionSet) : bool :=
  match offset s with
  | Some n => 0 <=? n
  | None => true
  end.

(** Validation happens once, when the set is finalized: either the valid
    set or the single out-of-range error. *)
Definition finalize (s : OptionSet) : outcome OptionSet :=
  if limit_ok s && offset_ok s then Ok s else Err ErrOutOfRange.

Definition newOpt (opts : list Option) : outcome OptionSet :=
  finalize (build opts).

(** The search URL builder injects the term as a [SetSearch] directive. *)
Definition optSearch (qry : string) : Option := SetSearch qry.

(** Form encoding of one byte: unreserved bytes stay, a space becomes [+],
    every other byte is percent-encoded. *)
Definition hex_digit (n : N) : ascii :=
  if (n <? 10)%N then ascii_of_N (48 + n) else ascii_of_N (55 + n).

Definition unreserved (c : ascii) : bool :=
  let n := N_of_ascii c in
  ((48 <=? n) && (n <=? 57) || (65 <=? n) && (n <=? 90)
   || (97 <=? n) && (n <=? 122)
   || (n =? 45) || (n =? 46) || (n =? 95) || (n =? 126))%N.

Fixpoint QueryEscape (s : string) : string :=
  match s with
  | EmptyString => EmptyString
  | String c rest =>
      if unreserved c then String c (QueryEscape rest)
      else if Ascii.eqb c space then String "+" (QueryEscape rest)
      else
        let n := N_of_ascii c in
        String "%" (String (hex_digit (n / 16)) (String (hex_digit (n mod 16))
                                                   (QueryEscape rest)))
  end.

Definition operator_name (op : operator) : string :=
  match op with
  | OpEquals => "eq"
  | OpNotEquals => "not_eq"
  | OpGreaterThan => "gt"
  | OpGreaterThanEqual => "gte"
  | OpLessThan => "lt"
  | OpLessThanEqual => "lte"
  | OpPrefix => "prefix"
  end.

Definition direction_name (d : direction) : string :=
  match d with Ascending => "asc" | Descending => "desc" end.

Definition pair_of (key value : string) : string :=
  QueryEscape key ++ "=" ++ QueryEscape value.

Definition opt_pair (key : string) (value : option string) : list string :=
  match value with
  | Some v => [pair_of key v]
  | None => []
  end.

Definition fields_pair (fs : list string) : list string :=
  match fs with
  | [] => []
  | _ => [pair_of "fields"
            (if existsb (String.eqb "*") fs then "*" else String.concat "," fs)]
  end.

Definition filter_pair (flt : string * operator * string) : string :=
  let '(f, op, v) := flt in
  pair_of ("filter[" ++ f ++ "][" ++ operator_name op ++ "]") v.

Definition order_value (o : string * direction) : string :=
  fst o ++ ":" ++ direction_name (snd o).

(** The key-value pairs of a set, one per filter, [*] suppressing the other
    field names. *)
Definition pairs (s : OptionSet) : list string :=
  List.concat
    [ fields_pair (fields s);
      map filter_pair (filters s);
      opt_pair "limit" (option_map Itoa (limit s));
      opt_pair "offset" (option_map Itoa (offset s));
      opt_pair "order" (option_map order_value (order s));
      opt_pair "search" (search s) ].

#[global] Instance OptionSet_Encoder : Encoder OptionSet :=
  fun s => String.concat "&" (pairs s).

End Options.

(** ** Pure outcomes in sequence *)

Definition obind {A B} (o : outcome A) (k : A -> outcome B) : outcome B :=
  match o with
  | Ok a => k a
  | Err e => Err e
  | Panic m => Panic m
  end.

Notation "x <-- o ;;; k" := (obind o (fun x => k))
  (at level 61, o at next level, right associativity).

(** [if err != nil { return err }] for a call that yields only an error. *)
Definition check (err : option error) : outcome unit :=
  match err with
  | Some e => Err e
  | None => Ok tt
  end.

(** The bytes of a header field name: letters, digits and the token
    punctuation of HTTP. *)
Definition isUpper (c : ascii) : bool :=
  let n := N_of_ascii c in ((65 <=? n) && (n <=? 90))%N.

Definition isLower (c : ascii) : bool :=
  let n := N_of_ascii c in ((97 <=? n) && (n <=? 122))%N.

Definition toUpper (c : ascii) : ascii :=
  if isLower c then ascii_of_N (N_of_ascii c - 32) else c.

Definition toLower (c : ascii) : ascii :=
  if isUpper c then ascii_of_N (N_of_ascii c + 32) else c.

Definition validHeaderFieldByte (c : ascii) : bool :=
  isUpper c || isLower c || isDigit c
  || contains c "!#$%&'*+-.^_`|~".

(** The loop of canonicalization: a letter is made upper case at the start
    and after a hyphen, lower case elsewhere. *)
Fixpoint canonicalize (upper : bool) (s : string) : string :=
  match s with
  | EmptyString => EmptyString
  | String c rest =>
      let c' := if upper then toUpper c else toLower c in
      String c' (canonicalize (Ascii.eqb c' "-") rest)
  end.

(** [textproto.CanonicalMIMEHeaderKey]: a key that holds a byte which is no
    field name byte is returned as it is. *)
Definition CanonicalMIMEHeaderKey (s : string) : string :=
  if string_forallb validHeaderFieldByte s then canonicalize true s else s.

(** Appending a value to the values of a key of the header map. *)
Fixpoint header_append (h : list (string * list string)) (key value : string)
    : list (string * list string) :=
  match h with
  | [] => [(key, [value])]
  | (k, vs) :: rest =>
      if String.eqb k key then (k, (vs ++ [value])%list) :: rest
      else (k, vs) :: header_append rest key value
  end.

(** [req.Header.Add(key, value)]: the value is appended to the values of
    the canonical form of the key. *)
Definition Header_Add (req : Request) (key value : string) : Request :=
  {| Method := Method req; reqURL := reqURL req;
     Header := header_append (Header req) (CanonicalMIMEHeaderKey key) value |}.

(** ** Fixtures of the test-suite *)

Module Fixture.

(** The double quote, which delimits JSON strings. *)
Definition dq : string := String (ascii_of_nat 34) "".

(** The bodies the tests serve. *)
Definition bodyEmpty : string := "".
Definition bodyEmptyArray : string := "[]".
Definition bodyCount100 : string := "{" ++ dq ++ "count" ++ dq ++ ": 100}".
Definition bodyDotFields : string :=
  "[" ++ dq ++ "logo.url" ++ dq ++ ", " ++ dq ++ "background.id" ++ dq ++ "]".
Definition bodyOneGame : string :=
  "[{" ++ dq ++ "id" ++ dq ++ ": 296456}]".

(** The parse of each served body; any other text is rejected. *)
Definition parse (b : string) : option json :=
  if String.eqb b bodyEmptyArray then Some (JArr [])
  else if String.eqb b bodyCount100 then Some (JObj [("count", JNum 100)])
  else if String.eqb b bodyDotFields then
    Some (JArr [JStr "logo.url"; JStr "background.id"])
  else if String.eqb b bodyOneGame then
    Some (JArr [JObj [("id", JNum 296456)]])
  else None.

(** testServerString: a client whose server answers every request with the
    given status and body. *)
Definition testServerString (status : Z) (resp : string) : Client :=
  {| http := fun _ => Ok {| StatusCode := status; Body := Ok resp |};
     rootURL := "http://127.0.0.1/" |}.

(** A status check that accepts 200 only. *)
Definition checkStatus (c : Client) (resp : Response) : option error :=
  if StatusCode resp =? 200 then None else Some (LibError "status").

(** Every URL parses. *)
Definition parseURL (url : string) : option error := None.

Definition key : string := "secret".

(** An entity reduced to its ID. *)
Definition decodeID : decoder Z :=
  fun j =>
    match j with
    | JObj ms =>
        match member "id" ms with
        | Some v => decode_int v
        | None => Ok 0
        end
    | JNull => Ok 0
    | _ => Err (UnmarshalTypeError (json_kind j))
    end.

End Fixture.

(** ** Further sample servers *)

Module Sample.

Definition bodyNull : string := "null".
Definition bodyObject : string := "{}".
Definition bodyNullAndGame : string :=
  "[null, {" ++ Fixture.dq ++ "id" ++ Fixture.dq ++ ": 7}]".
Definition bodyBadGame : string :=
  "[{" ++ Fixture.dq ++ "id" ++ Fixture.dq ++ ": true}]".

(** The parse of each sample body; any other text is rejected. *)
Definition parse (b : string) : option json :=
  if String.eqb b Fixture.bodyEmptyArray then Some (JArr [])
  else if String.eqb b bodyNull then Some JNull
  else if String.eqb b bodyObject then Some (JObj [])
  else if String.eqb b bodyNullAndGame then
    Some (JArr [JNull; JObj [("id", JNum 7)]])
  else if String.eqb b bodyBadGame then
    Some (JArr [JObj [("id", JBool true)]])
  else if String.eqb b Fixture.bodyOneGame then
    Some (JArr [JObj [("id", JNum 296456)]])
  else None.

(** A client whose transport fails. *)
Definition offline : Client :=
  {| http := fun _ => Err (LibError "offline");
     rootURL := "http://127.0.0.1/" |}.

(** A client whose server answers 200 with a body that cannot be read to
    the end. *)
Definition brokenBody : Client :=
  {| http := fun _ => Ok {| StatusCode := 200; Body := Err (LibError "read") |};
     rootURL := "http://127.0.0.1/" |}.

(** A URL parser that rejects everything. *)
Definition rejectURL (url : string) : option error := Some (LibError "url").

End Sample.

(** ** The package *)

Section Igdb.

(** What the package takes from files that are not among the sources and
    from the Go libraries:
    - [OptionFunc], [newOpt] and [optSearch] of the options file; [newOpt]
      yields the [url.Values] of the options it builds, which is an
      [Encoder];
    - the constant [APIkey];
    - the method [checkError], which inspects the response status;
    - [http.NewRequest], which fails on a URL that does not parse;
    - the JSON syntax of [encoding/json], as a parser of bodies, which
      rejects the empty body;
    - the decoders of the entity structures [Game] and [Feed]. *)
Variable OptionFunc : Type.
Variable Values : Type.
Context `{EncoderValues : Encoder Values}.
Variable newOpt : list OptionFunc -> outcome Values.
Variable optSearch : string -> OptionFunc.
Variable APIkey : string.
Variable checkError : Client -> Response -> option error.
Variable url_Parse : string -> option error.
Variable parseJSON : string -> option json.
Hypothesis parseJSON_empty : parseJSON "" = None.
Variables Game Feed : Type.
Variable decodeGame : decoder Game.
Variable decodeFeed : decoder Feed.

(** [http.NewRequest(method, url, nil)]. *)
Definition NewRequest (method url : string) : outcome Request :=
  match url_Parse url with
  | Some e => Err e
  | None => Ok {| Method := method; reqURL := url; Header := [] |}
  end.

(** [json.Unmarshal(b, &result)]: a body that is not valid JSON is a
    syntax error, a valid one is stored through the destination's
    decoder. *)
Definition Unmarshal {A} (b : string) (result : decoder A) : outcome A :=
  match parseJSON b with
  | None => Err SyntaxError
  | Some j => result j
  end.

(** get sends a GET request to the url and stores the response in the
    result if no errors are encountered. *)
Definition get {A} (c : Client) (url : string) (result : decoder A) : M A :=
  req <- lift (NewRequest "GET" url) ;;
  let req := Header_Add req "user-key" APIkey in
  let req := Header_Add req "Accept" "application/json" in
  resp <- Do c req ;;
  _ <- lift (check (checkError c resp)) ;;
  b <- lift (Body resp) ;;
  lift (Unmarshal b result).

(** singleURL creates a URL configured to request a single IGDB entity
    identified by its unique IGDB ID using the given endpoint. *)
Definition singleURL (c : Client) (end_ : endpoint) (id : Z)
    (opts : list OptionFunc) : outcome string :=
  if id <? 0 then Err ErrNegativeID
  else
    opt <-- newOpt opts ;;;
    let url := rootURL c ++ end_ ++ Itoa id in
    let url := encodeURL opt url in
    Ok url.

(** The loop of multiURL: the first negative ID aborts. *)
Fixpoint checkIDs (ids : list Z) : outcome unit :=
  match ids with
  | [] => Ok tt
  | id :: rest => if id <? 0 then Err ErrNegativeID else checkIDs rest
  end.

(** multiURL creates a URL configured to request multiple IGDB entities
    identified by their unique IGDB IDs using the given endpoint. *)
Definition multiURL (c : Client) (end_ : endpoint) (ids : list Z)
    (opts : list OptionFunc) : outcome string :=
  _ <-- checkIDs ids ;;;
  opt <-- newOpt opts ;;;
  let url := rootURL c ++ end_ ++ intsToCommaString ids in
  let url := encodeURL opt url in
  Ok url.

(** searchURL creates a URL configured to search the IGDB based on the
    given query using the given endpoint. *)
Definition searchURL (c : Client) (end_ : endpoint) (qry : string)
    (opts : list OptionFunc) : outcome string :=
  let opts := (opts ++ [optSearch qry])%list in
  opt <-- newOpt opts ;;;
  let url := rootURL c ++ end_ in
  let url := encodeURL opt url in
  Ok url.

(** GetGame gets IGDB information for a game identified by their unique
    IGDB ID. *)
Definition GetGame (c : Client) (id : Z) (opts : list OptionFunc) : M Game :=
  url <- lift (singleURL c GameEndpoint id opts) ;;
  g <- get c url (decode_slice decodeGame) ;;
  lift (index g 0).

(** GetGames gets IGDB information for a list of games identified by a
    list of their unique IGDB IDs. *)
Definition GetGames (c : Client) (ids : list Z) (opts : list OptionFunc)
    : M (list (option Game)) :=
  url <- lift (multiURL c GameEndpoint ids opts) ;;
  g <- get c url (decode_slice (decode_ptr decodeGame)) ;;
  ret g.

(** SearchGames searches the IGDB using the given query and returns IGDB
    information for the results. *)
Definition SearchGames (c : Client) (qry : string) (opts : list OptionFunc)
    : M (list (option Game)) :=
  url <- lift (searchURL c GameEndpoint qry opts) ;;
  g <- get c url (decode_slice (decode_ptr decodeGame)) ;;
  ret g.

(** GetFeed gets IGDB information for a feed identified by its unique
    IGDB ID. *)
Definition GetFeed (c : Client) (id : Z) (opts : list OptionFunc) : M Feed :=
  url <- lift (singleURL c FeedEndpoint id opts) ;;
  f <- get c url (decode_slice decodeFeed) ;;
  lift (index f 0).

(** GetFeeds gets IGDB information for a list of feeds identified by
    their unique IGDB IDs. *)
Definition GetFeeds (c : Client) (ids : list Z) (opts : list OptionFunc)
    : M (list (option Feed)) :=
  url <- lift (multiURL c FeedEndpoint ids opts) ;;
  f <- get c url (decode_slice (decode_ptr decodeFeed)) ;;
  ret f.

(** GetEndpointModel returns a list of fields the represent the model of
    the data available at the given IGDB endpoint. *)
Definition GetEndpointModel (c : Client) (end_ : endpoint) : M (list string) :=
  let url := rootURL c ++ end_ ++ "meta" in
  f <- get c url (decode_slice decode_string) ;;
  ret f.

(** The request [get] hands to the HTTP client for a URL: a GET with the
    API key under the canonical key of "user-key" and the accepted type. *)
Definition getRequest (url : string) : Request :=
  {| Method := "GET"; reqURL := url;
     Header := [("User-Key", [APIkey]); ("Accept", ["application/json"])] |}.

(** *** The count accessor *)

(** Modelled from the spec: the destination [{count: int}] of the Count
    accessor, which no Go file among the sources declares (the test-suite
    calls it).  Section 4.4 of the description: a bare empty list is the
    no-results condition, not the count 0. *)
Definition decode_count : decoder Z :=
  fun j =>
    match j with
    | JArr [] => Err ErrNoResults
    | JObj ms =>
        match member "count" ms with
        | Some v => decode_int v
        | None => Ok 0
        end
    | _ => Err (UnmarshalTypeError (json_kind j))
    end.

(** Modelled from the spec: the Count accessor, a thin composition of the
    option set, the URL of the count resource of the endpoint and the
    transport [get] of igdb.go with the destination above. *)
Definition Count (c : Client) (end_ : endpoint) (opts : list OptionFunc) : M Z :=
  opt <- lift (newOpt opts) ;;
  let url := encodeURL opt (rootURL c ++ end_ ++ "count") in
  n <- get c url decode_count ;;
  ret n.

(** ** Facts about strings *)

Lemma append_nil_r (s : string) : s ++ "" = s.
Proof. induction s as [|a s IH]; simpl; [reflexivity | now rewrite IH]. Qed.

Lemma append_assoc (s t u : string) : (s ++ t) ++ u = s ++ t ++ u.
Proof. induction s as [|a s IH]; simpl; [reflexivity | now rewrite IH]. Qed.

Lemma removeAll_app (c : ascii) (s t : string) :
  removeAll c (s ++ t) = removeAll c s ++ removeAll c t.
Proof.
  induction s as [|a s IH]; simpl; [reflexivity|].
  destruct (Ascii.eqb a c); simpl; now rewrite IH.
Qed.

Lemma contains_app (c : ascii) (s t : string) :
  contains c (s ++ t) = contains c s || contains c t.
Proof.
  induction s as [|a s IH]; simpl; [reflexivity|].
  rewrite IH. now rewrite orb_assoc.
Qed.

Lemma removeAll_none (c : ascii) (s : string) :
  contains c s = false -> removeAll c s = s.
Proof.
  induction s as [|a s IH]; simpl; [reflexivity|].
  intros H. apply orb_false_iff in H. destruct H as [Ha Hs].
  rewrite Ha. now rewrite IH.
Qed.

Lemma contains_removeAll (c : ascii) (s : string) :
  contains c (removeAll c s) = false.
Proof.
  induction s as [|a s IH]; simpl; [reflexivity|].
  destruct (Ascii.eqb a c) eqn:E; simpl; [exact IH|].
  now rewrite E, IH.
Qed.

(** What is left is the input without its spaces, in the same order. *)
Lemma removeAll_filter (c : ascii) (s : string) :
  list_ascii_of_string (removeAll c s)
  = filter (fun a => negb (Ascii.eqb a c)) (list_ascii_of_string s).
Proof.
  induction s as [|a s IH]; simpl; [reflexivity|].
  destruct (Ascii.eqb a c); simpl; now rewrite IH.
Qed.

(** ** Facts about the decimal representation *)

Lemma string_of_uint_no_space (d : Decimal.uint) :
  contains space (NilEmpty.string_of_uint d) = false.
Proof. induction d; simpl; auto. Qed.

Lemma Itoa_no_space (i : Z) : contains space (Itoa i) = false.
Proof.
  unfold Itoa, NilZero.string_of_int, NilZero.string_of_uint.
  destruct (Z.to_int i) as [d|d]; destruct d; simpl;
    auto using string_of_uint_no_space.
Qed.

(** [Itoa] can be read back. *)
Lemma Atoi_Itoa (i : Z) : Atoi (Itoa i) = Some i.
Proof.
  unfold Atoi, Itoa.
  rewrite NilZero.isi.
  - simpl. now rewrite DecimalZ.of_to.
  - destruct i; simpl; try discriminate.
    intros H. injection H as H.
    pose proof (DecimalPos.Unsigned.to_uint_nonnil p). congruence.
  - destruct i; simpl; try discriminate.
    intros H. injection H as H.
    pose proof (DecimalPos.Unsigned.to_uint_nonnil p). congruence.
Qed.

Lemma intsToStrings_loop_map (str : list string) (ints : list Z) :
  intsToStrings_loop str ints = (str ++ map Itoa ints)%list.
Proof.
  revert str. induction ints as [|i rest IH]; intros str; simpl.
  - now rewrite app_nil_r.
  - rewrite IH. now rewrite <- app_assoc.
Qed.

Lemma intsToStrings_map (ints : list Z) : intsToStrings ints = map Itoa ints.
Proof. unfold intsToStrings. now rewrite intsToStrings_loop_map. Qed.

Lemma intsToCommaString_concat (ints : list Z) :
  intsToCommaString ints = String.concat "," (map Itoa ints).
Proof. unfold intsToCommaString, Join. now rewrite intsToStrings_map. Qed.

Lemma intsToCommaString_no_space (ints : list Z) :
  contains space (intsToCommaString ints) = false.
Proof.
  rewrite intsToCommaString_concat.
  induction ints as [|i rest IH]; [reflexivity|].
  destruct rest as [|j rest]; [apply Itoa_no_space|].
  change (contains space (Itoa i ++ "," ++ String.concat "," (map Itoa (j :: rest))) = false).
  rewrite !contains_app, Itoa_no_space, IH. reflexivity.
Qed.

(** ** Facts about the URL builders *)

Lemma encodeURL_query {E : Type} `{Encoder E} (enc : E) (url : string) :
  encodeURL enc url = removeAll space url ++ query enc.
Proof.
  unfold encodeURL, query.
  destruct (String.eqb (Encode enc) ""); [now rewrite append_nil_r | reflexivity].
Qed.

Lemma checkIDs_negative (ids : list Z) :
  Exists (fun id => id < 0) ids -> checkIDs ids = Err ErrNegativeID.
Proof.
  induction ids as [|id rest IH]; intros H; simpl.
  - inversion H.
  - destruct (id <? 0) eqn:E; [reflexivity|].
    apply Z.ltb_ge in E.
    inversion H as [? ? Hneg | ? ? Hrest]; subst; [lia | now apply IH].
Qed.

Lemma checkIDs_nonneg (ids : list Z) :
  Forall (fun id => 0 <= id) ids -> checkIDs ids = Ok tt.
Proof.
  induction 1 as [|id rest Hid _ IH]; simpl; [reflexivity|].
  apply Z.ltb_ge in Hid. now rewrite Hid.
Qed.

Lemma multiURL_nonneg (c : Client) (end_ : endpoint) (ids : list Z)
    (opts : list OptionFunc) :
  Forall (fun id => 0 <= id) ids ->
  multiURL c end_ ids opts
  = outcome_map
      (fun opt => removeAll space (rootURL c ++ end_)
                  ++ String.concat "," (map Itoa ids) ++ query opt)
      (newOpt opts).
Proof.
  intros Hids. unfold multiURL. rewrite (checkIDs_nonneg _ Hids). simpl.
  destruct (newOpt opts) as [opt|e|m]; simpl; try reflexivity.
  rewrite encodeURL_query, <- append_assoc, removeAll_app.
  rewrite (removeAll_none _ _ (intsToCommaString_no_space ids)).
  now rewrite intsToCommaString_concat, append_assoc.
Qed.

(** ** Facts about the transport *)

(** The request [get] builds, header by header, is [getRequest]. *)
Lemma get_request_built (url : string) :
  Header_Add
    (Header_Add {| Method := "GET"; reqURL := url; Header := [] |}
                "user-key" APIkey)
    "Accept" "application/json"
  = getRequest url.
Proof. reflexivity. Qed.

Example canonical_header_keys :
  CanonicalMIMEHeaderKey "user-key" = "User-Key"
  /\ CanonicalMIMEHeaderKey "Accept" = "Accept"
  /\ CanonicalMIMEHeaderKey "content-TYPE" = "Content-Type"
  /\ CanonicalMIMEHeaderKey "user key" = "user key".
Proof. repeat split. Qed.

Lemma get_reaches_body {A} (c : Client) (url : string) (result : decoder A)
    (tr : list Request) (resp : Response) (b : string) :
  url_Parse url = None ->
  http c (getRequest url) = Ok resp ->
  checkError c resp = None ->
  Body resp = Ok b ->
  get c url result tr = (Unmarshal b result, (tr ++ [getRequest url])%list).
Proof.
  intros Hurl Hdo Hchk Hbody.
  unfold get, bind, lift, Do, NewRequest. rewrite Hurl.
  cbv beta iota. rewrite get_request_built.
  rewrite Hdo, Hchk. simpl. rewrite Hbody. reflexivity.
Qed.

Lemma get_trace {A} (c : Client) (url : string) (result : decoder A)
    (tr : list Request) :
  url_Parse url = None ->
  snd (get c url result tr) = (tr ++ [getRequest url])%list.
Proof.
  intros Hurl.
  unfold get, bind, lift, Do, NewRequest. rewrite Hurl.
  cbv beta iota. rewrite get_request_built.
  destruct (http c (getRequest url)) as [resp|e|m]; try reflexivity.
  destruct (checkError c resp); simpl; try reflexivity.
  destruct (Body resp); reflexivity.
Qed.

(** [get] passes the decoder's syntax error on as it is. *)
Lemma get_unparseable_body {A} (c : Client) (url : string) (result : decoder A)
    (tr : list Request) (resp : Response) (b : string) :
  url_Parse url = None ->
  http c (getRequest url) = Ok resp ->
  checkError c resp = None ->
  Body resp = Ok b ->
  parseJSON b = None ->
  get c url result tr = (Err SyntaxError, (tr ++ [getRequest url])%list).
Proof.
  intros Hurl Hdo Hchk Hbody Hparse.
  rewrite (get_reaches_body _ _ _ _ resp b) by assumption.
  unfold Unmarshal. now rewrite Hparse.
Qed.

(** For a non-negative id and options that finalize, the single-entity URL
    carries the decimal id after root and endpoint. *)
Lemma singleURL_nonneg (c : Client) (end_ : endpoint) (id : Z)
    (opts : list OptionFunc) (opt : Values) :
  0 <= id ->
  newOpt opts = Ok opt ->
  singleURL c end_ id opts
  = Ok (removeAll space (rootURL c ++ end_) ++ Itoa id ++ query opt).
Proof.
  intros Hid Hopt. apply Z.ltb_ge in Hid.
  unfold singleURL. rewrite Hid, Hopt. simpl.
  rewrite encodeURL_query, <- append_assoc, removeAll_app.
  rewrite (removeAll_none _ _ (Itoa_no_space id)).
  now rewrite append_assoc.
Qed.

Lemma Unmarshal_empty_array {A} (b : string) (d : decoder A) :
  parseJSON b = Some (JArr []) -> Unmarshal b (decode_slice d) = Ok [].
Proof. intros H. unfold Unmarshal. now rewrite H. Qed.

Lemma decode_elems_strings (names : list string) :
  decode_elems decode_string (map JStr names) = Ok names.
Proof.
  induction names as [|n rest IH]; simpl; [reflexivity|].
  now rewrite IH.
Qed.

(** An error of the option list stops every accessor before the request. *)
Lemma option_error_makes_no_request
    (c : Client) (opts : list OptionFunc) (e : error) (tr : list Request) :
  newOpt opts = Err e ->
  (forall id, 0 <= id -> GetGame c id opts tr = (Err e, tr))
  /\ (forall ids, Forall (fun id => 0 <= id) ids ->
                  GetGames c ids opts tr = (Err e, tr))
  /\ (forall end_, Count c end_ opts tr = (Err e, tr)).
Proof.
  intros Hopt. repeat split.
  - intros id Hid. apply Z.ltb_ge in Hid.
    unfold GetGame, bind, lift, singleURL. now rewrite Hid, Hopt.
  - intros ids Hids.
    unfold GetGames, bind, lift, multiURL.
    now rewrite (checkIDs_nonneg _ Hids), Hopt.
  - intros end_. unfold Count, bind, lift. now rewrite Hopt.
Qed.

(** ** The claims *)

(** C6.  encodeURL returns the input URL with every literal space removed
    (what is left is the input without its spaces, in order) followed by the
    query: nothing when the encoded option string is empty, and a question
    mark followed by the encoded string otherwise.  When the encoded string
    itself has no space, neither has the result. *)
Theorem encodeURL_strips_spaces_then_appends_query
    {E : Type} `{Encoder E} (enc : E) (url : string) :
  contains space (removeAll space url) = false
  /\ list_ascii_of_string (removeAll space url)
     = filter (fun a => negb (Ascii.eqb a space)) (list_ascii_of_string url)
  /\ (Encode enc = "" -> encodeURL enc url = removeAll space url)
  /\ (Encode enc <> "" ->
      encodeURL enc url = removeAll space url ++ "?" ++ Encode enc)
  /\ (contains space (Encode enc) = false ->
      contains space (encodeURL enc url) = false).
Proof.
  repeat split.
  - apply contains_removeAll.
  - apply removeAll_filter.
  - intros Hv. unfold encodeURL. now rewrite Hv.
  - intros Hv. unfold encodeURL.
    destruct (String.eqb_spec (Encode enc) ""); [contradiction | reflexivity].
  - intros Hv. rewrite encodeURL_query, contains_app, contains_removeAll.
    unfold query. destruct (String.eqb (Encode enc) ""); [reflexivity|].
    simpl. exact Hv.
Qed.

(** C4.  For a list of non-negative ids and options that finalize, multiURL
    succeeds and its URL is the root URL and the endpoint path (spaces
    removed), then the decimal representations of the ids joined by commas in
    the order of the list, then the query; when root and endpoint hold no
    space, the path is exactly root, endpoint and the joined ids.  A list
    with a negative id yields ErrNegativeID. *)
Theorem multiURL_joins_ids_with_commas
    (c : Client) (end_ : endpoint) (ids : list Z) (opts : list OptionFunc) :
  (forall opt,
      ids <> [] ->
      Forall (fun id => 0 <= id) ids ->
      newOpt opts = Ok opt ->
      multiURL c end_ ids opts
      = Ok (removeAll space (rootURL c ++ end_)
            ++ String.concat "," (map Itoa ids) ++ query opt)
      /\ (contains space (rootURL c ++ end_) = false ->
          multiURL c end_ ids opts
          = Ok ((rootURL c ++ end_ ++ String.concat "," (map Itoa ids))
                ++ query opt)))
  /\ (Exists (fun id => id < 0) ids ->
      multiURL c end_ ids opts = Err ErrNegativeID).
Proof.
  split.
  - intros opt _ Hids Hopt.
    rewrite (multiURL_nonneg _ _ _ _ Hids), Hopt. simpl.
    split; [reflexivity|].
    intros Hsp. rewrite (removeAll_none _ _ Hsp).
    now rewrite !append_assoc.
  - intros Hneg. unfold multiURL. now rewrite (checkIDs_negative _ Hneg).
Qed.

(** C9.  The multi-entity URL of the singleton list [id] is the
    single-entity URL of id, as a value and as an error; this holds for every
    id, in particular for the non-negative ones. *)
Theorem multiURL_singleton_is_singleURL
    (c : Client) (end_ : endpoint) (id : Z) (opts : list OptionFunc) :
  multiURL c end_ [id] opts = singleURL c end_ id opts.
Proof.
  unfold multiURL, singleURL. simpl.
  destruct (id <? 0); reflexivity.
Qed.

(** C10.  The check of the ids comes before the options are finalized:
    whatever newOpt would answer for the option list, a negative id makes
    singleURL return ErrNegativeID, and a list with a negative id makes
    multiURL return ErrNegativeID. *)
Theorem negative_id_precedes_option_errors
    (c : Client) (end_ : endpoint) (opts : list OptionFunc) :
  (forall id, id < 0 -> singleURL c end_ id opts = Err ErrNegativeID)
  /\ (forall ids, Exists (fun id => id < 0) ids ->
                  multiURL c end_ ids opts = Err ErrNegativeID).
Proof.
  split.
  - intros id Hid. unfold singleURL.
    apply Z.ltb_lt in Hid. now rewrite Hid.
  - intros ids Hneg. unfold multiURL. now rewrite (checkIDs_negative _ Hneg).
Qed.

(** C2.  For a negative id the accessors GetGame and GetFeed return
    ErrNegativeID and leave the trace of HTTP requests as it was.  For a
    non-negative id they go on: singleURL finalizes the options and builds
    the URL from root, endpoint and the decimal id; when the options fail the
    accessor returns their error, and when they finalize it hands that URL to
    get, so that a GET for it joins the trace as soon as the URL parses. *)
Theorem Get_negative_id_makes_no_request
    (c : Client) (id : Z) (opts : list OptionFunc) (tr : list Request) :
  (id < 0 ->
   GetGame c id opts tr = (Err ErrNegativeID, tr)
   /\ GetFeed c id opts tr = (Err ErrNegativeID, tr))
  /\ (0 <= id ->
      (forall end_,
        singleURL c end_ id opts
        = outcome_map (fun opt => encodeURL opt (rootURL c ++ end_ ++ Itoa id))
                      (newOpt opts))
      /\ (forall e, newOpt opts = Err e ->
             GetGame c id opts tr = (Err e, tr)
             /\ GetFeed c id opts tr = (Err e, tr))
      /\ (forall opt, newOpt opts = Ok opt ->
             GetGame c id opts tr
             = (g <- get c (encodeURL opt (rootURL c ++ GameEndpoint ++ Itoa id))
                         (decode_slice decodeGame) ;;
                lift (index g 0)) tr
             /\ GetFeed c id opts tr
                = (f <- get c (encodeURL opt (rootURL c ++ FeedEndpoint
                                              ++ Itoa id))
                            (decode_slice decodeFeed) ;;
                   lift (index f 0)) tr
             /\ (url_Parse (encodeURL opt (rootURL c ++ GameEndpoint ++ Itoa id))
                 = None ->
                 snd (GetGame c id opts tr)
                 = (tr ++ [getRequest
                             (encodeURL opt (rootURL c ++ GameEndpoint
                                             ++ Itoa id))])%list)
             /\ (url_Parse (encodeURL opt (rootURL c ++ FeedEndpoint ++ Itoa id))
                 = None ->
                 snd (GetFeed c id opts tr)
                 = (tr ++ [getRequest
                             (encodeURL opt (rootURL c ++ FeedEndpoint
                                             ++ Itoa id))])%list))).
Proof.
  split.
  - intros Hid. apply Z.ltb_lt in Hid.
    unfold GetGame, GetFeed, bind, lift, singleURL. now rewrite Hid.
  - intros Hid. apply Z.ltb_ge in Hid.
    split; [|split].
    + intros end_. unfold singleURL. rewrite Hid.
      destruct (newOpt opts); reflexivity.
    + intros e He.
      unfold GetGame, GetFeed, bind, lift, singleURL. now rewrite Hid, He.
    + intros opt Hopt.
      assert (HG : GetGame c id opts tr
                   = (g <- get c (encodeURL opt (rootURL c ++ GameEndpoint
                                                 ++ Itoa id))
                               (decode_slice decodeGame) ;;
                      lift (index g 0)) tr).
      { unfold GetGame, singleURL. rewrite Hid, Hopt. reflexivity. }
      assert (HF : GetFeed c id opts tr
                   = (f <- get c (encodeURL opt (rootURL c ++ FeedEndpoint
                                                 ++ Itoa id))
                               (decode_slice decodeFeed) ;;
                      lift (index f 0)) tr).
      { unfold GetFeed, singleURL. rewrite Hid, Hopt. reflexivity. }
      split; [exact HG|]. split; [exact HF|].
      split.
      * intros Hurl. rewrite HG. unfold bind, lift.
        pose proof (get_trace c _ (decode_slice decodeGame) tr Hurl) as Ht.
        destruct (get c _ (decode_slice decodeGame) tr) as [[g|e|m] tr'];
          exact Ht.
      * intros Hurl. rewrite HF. unfold bind, lift.
        pose proof (get_trace c _ (decode_slice decodeFeed) tr Hurl) as Ht.
        destruct (get c _ (decode_slice decodeFeed) tr) as [[f|e|m] tr'];
          exact Ht.
Qed.

(** C1.  What the accessors of game.go and of the feed file do when the
    server answers with a body that parses as the empty array: GetGame and
    GetFeed index the empty slice and panic, GetGames, GetFeeds and
    SearchGames return the empty list with no error.  None of them returns
    ErrNoResults. *)
Theorem accessors_on_empty_array
    (c : Client) (opts : list OptionFunc) (opt : Values) (tr : list Request)
    (resp : Response) (b : string) :
  newOpt opts = Ok opt ->
  (forall url, url_Parse url = None) ->
  (forall req, http c req = Ok resp) ->
  checkError c resp = None ->
  Body resp = Ok b ->
  parseJSON b = Some (JArr []) ->
  (forall id, 0 <= id ->
     fst (GetGame c id opts tr) = Panic "index out of range"
     /\ fst (GetFeed c id opts tr) = Panic "index out of range")
  /\ (forall ids, ids <> [] -> Forall (fun id => 0 <= id) ids ->
        fst (GetGames c ids opts tr) = Ok []
        /\ fst (GetFeeds c ids opts tr) = Ok [])
  /\ (forall qry opt', newOpt (opts ++ [optSearch qry]) = Ok opt' ->
        fst (SearchGames c qry opts tr) = Ok []).
Proof.
  intros Hopt Hurl Hdo Hchk Hbody Hparse.
  assert (Hget : forall A (d : decoder A) url,
             get c url (decode_slice d) tr
             = (Ok [], (tr ++ [getRequest url])%list)).
  { intros A d url.
    rewrite (get_reaches_body _ _ _ _ resp b) by auto.
    now rewrite (Unmarshal_empty_array _ _ Hparse). }
  split; [|split].
  - intros id Hid. apply Z.ltb_ge in Hid.
    unfold GetGame, GetFeed, bind, lift, singleURL.
    rewrite Hid, Hopt. simpl. now rewrite !Hget.
  - intros ids _ Hids.
    unfold GetGames, GetFeeds, bind, lift, multiURL.
    rewrite (checkIDs_nonneg _ Hids), Hopt. simpl. now rewrite !Hget.
  - intros qry opt' Hq.
    unfold SearchGames, bind, lift, searchURL.
    rewrite Hq. simpl. now rewrite Hget.
Qed.

(** C3.  What GetGames does for the empty id list: multiURL accepts it and
    builds the URL of the bare endpoint, and the accessor hands a GET for
    that URL to the HTTP client; it does not stop with ErrEmptyIDs. *)
Theorem GetGames_empty_ids_sends_request
    (c : Client) (opts : list OptionFunc) (opt : Values) (tr : list Request) :
  newOpt opts = Ok opt ->
  (forall url, url_Parse url = None) ->
  multiURL c GameEndpoint [] opts
  = Ok (removeAll space (rootURL c ++ GameEndpoint) ++ query opt)
  /\ snd (GetGames c [] opts tr)
     = (tr ++ [getRequest (removeAll space (rootURL c ++ GameEndpoint)
                           ++ query opt)])%list
  /\ (forall resp,
        http c (getRequest (removeAll space (rootURL c ++ GameEndpoint)
                            ++ query opt)) = Ok resp ->
        checkError c resp = None ->
        Body resp = Ok "" ->
        fst (GetGames c [] opts tr) = Err SyntaxError).
Proof.
  intros Hopt Hurl.
  assert (Hm : multiURL c GameEndpoint [] opts
               = Ok (removeAll space (rootURL c ++ GameEndpoint) ++ query opt)).
  { rewrite multiURL_nonneg by constructor. now rewrite Hopt. }
  split; [exact Hm|].
  unfold GetGames, bind, lift. rewrite Hm.
  split.
  - pose proof (get_trace c
                  (removeAll space (rootURL c ++ GameEndpoint) ++ query opt)
                  (decode_slice (decode_ptr decodeGame)) tr (Hurl _)) as Ht.
    destruct (get c _ _ tr) as [[g|e|m] tr']; simpl in *; exact Ht.
  - intros resp Hdo Hchk Hbody.
    rewrite (get_reaches_body _ _ _ _ resp "") by auto.
    unfold Unmarshal. now rewrite parseJSON_empty.
Qed.

(** C7 (as amended).  GetEndpointModel requests the "meta" resource of the
    endpoint and returns the field names of the response body in the order in
    which the body lists them; it applies no sorting. *)
Theorem GetEndpointModel_keeps_body_order
    (c : Client) (end_ : endpoint) (tr : list Request)
    (resp : Response) (b : string) (names : list string) :
  url_Parse (rootURL c ++ end_ ++ "meta") = None ->
  http c (getRequest (rootURL c ++ end_ ++ "meta")) = Ok resp ->
  checkError c resp = None ->
  Body resp = Ok b ->
  parseJSON b = Some (JArr (map JStr names)) ->
  GetEndpointModel c end_ tr
  = (Ok names, (tr ++ [getRequest (rootURL c ++ end_ ++ "meta")])%list).
Proof.
  intros Hurl Hdo Hchk Hbody Hparse.
  unfold GetEndpointModel, bind, ret.
  rewrite (get_reaches_body _ _ _ _ resp b) by auto.
  unfold Unmarshal. rewrite Hparse. simpl.
  now rewrite decode_elems_strings.
Qed.


(** ** Further facts about strings and decimal numbers *)

Lemma length_append (s t : string) :
  String.length (s ++ t) = (String.length s + String.length t)%nat.
Proof. induction s as [|a s IH]; simpl; [reflexivity | now rewrite IH]. Qed.

Lemma append_cancel_l (p s t : string) : p ++ s = p ++ t -> s = t.
Proof.
  induction p as [|a p IH]; simpl; intros H; [exact H|].
  injection H as H. now apply IH.
Qed.

Lemma append_cancel_r (s t q : string) : s ++ q = t ++ q -> s = t.
Proof.
  revert t. induction s as [|a s IH]; intros [|b t] H; simpl in *.
  - reflexivity.
  - apply (f_equal String.length) in H. simpl in H.
    rewrite length_append in H. lia.
  - apply (f_equal String.length) in H. simpl in H.
    rewrite length_append in H. lia.
  - injection H as Hab H. subst b. f_equal. now apply IH.
Qed.

Lemma removeAll_idempotent (c : ascii) (s : string) :
  removeAll c (removeAll c s) = removeAll c s.
Proof. apply removeAll_none, contains_removeAll. Qed.

Lemma length_removeAll (c : ascii) (s : string) :
  (String.length (removeAll c s) <= String.length s)%nat.
Proof.
  induction s as [|a s IH]; simpl; [lia|].
  destruct (Ascii.eqb a c); simpl; lia.
Qed.

Lemma string_of_uint_no_comma (d : Decimal.uint) :
  contains comma (NilEmpty.string_of_uint d) = false.
Proof. induction d; simpl; auto. Qed.

Lemma Itoa_no_comma (i : Z) : contains comma (Itoa i) = false.
Proof.
  unfold Itoa, NilZero.string_of_int, NilZero.string_of_uint.
  destruct (Z.to_int i) as [d|d]; destruct d; simpl;
    auto using string_of_uint_no_comma.
Qed.

Lemma Itoa_nonempty (i : Z) : Itoa i <> "".
Proof.
  unfold Itoa, NilZero.string_of_int, NilZero.string_of_uint.
  destruct (Z.to_int i) as [d|d]; destruct d; simpl; discriminate.
Qed.

Lemma Itoa_injective (i j : Z) : Itoa i = Itoa j -> i = j.
Proof.
  intros H. apply (f_equal Atoi) in H.
  rewrite !Atoi_Itoa in H. now injection H.
Qed.

Lemma splitOn_nonempty (sep : ascii) (s : string) : splitOn sep s <> [].
Proof.
  induction s as [|a s IH]; simpl; [discriminate|].
  destruct (Ascii.eqb a sep); [discriminate|].
  destruct (splitOn sep s); discriminate.
Qed.

Lemma splitOn_none (sep : ascii) (s : string) :
  contains sep s = false -> splitOn sep s = [s].
Proof.
  induction s as [|a s IH]; simpl; [reflexivity|].
  intros H. apply orb_false_iff in H. destruct H as [Ha Hs].
  rewrite Ha, (IH Hs). reflexivity.
Qed.

Lemma splitOn_app (sep : ascii) (a b : string) :
  contains sep a = false ->
  splitOn sep (a ++ String sep b) = a :: splitOn sep b.
Proof.
  induction a as [|c a IH]; simpl; intros H.
  - now rewrite Ascii.eqb_refl.
  - apply orb_false_iff in H. destruct H as [Hc Ha].
    rewrite Hc, (IH Ha). reflexivity.
Qed.

Lemma splitOn_concat (sep : ascii) (l : list string) :
  l <> [] ->
  Forall (fun w => contains sep w = false) l ->
  splitOn sep (String.concat (String sep "") l) = l.
Proof.
  induction l as [|w rest IH]; intros Hne Hall; [contradiction|].
  inversion Hall as [|? ? Hw Hrest]; subst.
  destruct rest as [|w' rest].
  - simpl. now apply splitOn_none.
  - change (String.concat (String sep "") (w :: w' :: rest))
      with (w ++ String sep (String.concat (String sep "") (w' :: rest))).
    rewrite (splitOn_app _ _ _ Hw). f_equal.
    apply IH; [discriminate | exact Hrest].
Qed.

Lemma sequence_Atoi_Itoa (ints : list Z) :
  sequence (map Atoi (map Itoa ints)) = Some ints.
Proof.
  induction ints as [|i rest IH]; simpl; [reflexivity|].
  now rewrite Atoi_Itoa, IH.
Qed.

Lemma concat_Itoa_nonempty (i : Z) (rest : list Z) :
  String.concat "," (map Itoa (i :: rest)) <> "".
Proof.
  destruct rest as [|j rest]; simpl.
  - apply Itoa_nonempty.
  - pose proof (Itoa_nonempty i) as H.
    destruct (Itoa i); [contradiction | discriminate].
Qed.

Lemma string_of_uint_digits (d : Decimal.uint) :
  string_forallb isDigit (NilEmpty.string_of_uint d) = true.
Proof. induction d; simpl; auto. Qed.

Lemma Itoa_digits (i : Z) : 0 <= i -> string_forallb isDigit (Itoa i) = true.
Proof.
  intros Hi. unfold Itoa, NilZero.string_of_int, NilZero.string_of_uint.
  destruct i as [|p|p]; simpl; [reflexivity| |lia].
  destruct (Pos.to_uint p); try reflexivity;
    apply (string_of_uint_digits (_ _)).
Qed.

(** A text without digits followed by a non-empty run of digits splits in
    one way only. *)
Lemma digits_split (e1 e2 d1 d2 : string) :
  string_forallb (fun c => negb (isDigit c)) e1 = true ->
  string_forallb (fun c => negb (isDigit c)) e2 = true ->
  string_forallb isDigit d1 = true ->
  string_forallb isDigit d2 = true ->
  d1 <> "" -> d2 <> "" ->
  e1 ++ d1 = e2 ++ d2 -> e1 = e2 /\ d1 = d2.
Proof.
  revert e2. induction e1 as [|a e1 IH]; intros [|b e2] He1 He2 Hd1 Hd2 Hn1 Hn2 H;
    simpl in *.
  - now split.
  - subst d1. simpl in Hd1.
    apply andb_true_iff in Hd1. apply andb_true_iff in He2.
    destruct Hd1 as [Hb _], He2 as [Hb' _]. rewrite Hb in Hb'. discriminate.
  - subst d2. simpl in Hd2.
    apply andb_true_iff in Hd2. apply andb_true_iff in He1.
    destruct Hd2 as [Ha _], He1 as [Ha' _]. rewrite Ha in Ha'. discriminate.
  - injection H as Hab H. subst b.
    apply andb_true_iff in He1. apply andb_true_iff in He2.
    destruct (IH e2 (proj2 He1) (proj2 He2) Hd1 Hd2 Hn1 Hn2 H) as [He Hd].
    split; [now f_equal | exact Hd].
Qed.

Lemma checkIDs_outcome (ids : list Z) :
  (checkIDs ids = Ok tt /\ Forall (fun id => 0 <= id) ids)
  \/ (checkIDs ids = Err ErrNegativeID /\ Exists (fun id => id < 0) ids).
Proof.
  induction ids as [|id rest IH]; simpl.
  - left. split; [reflexivity | constructor].
  - destruct (id <? 0) eqn:E.
    + right. split; [reflexivity|]. left. now apply Z.ltb_lt.
    + apply Z.ltb_ge in E. destruct IH as [[H1 H2] | [H1 H2]].
      * left. split; [exact H1 | now constructor].
      * right. split; [exact H1 | now right].
Qed.

Lemma endpoints_no_space (e : endpoint) :
  In e endpoints -> contains space e = false.
Proof.
  intros Hin.
  assert (H : forallb (fun e => negb (contains space e)) endpoints = true)
    by reflexivity.
  rewrite forallb_forall in H. apply H in Hin.
  now apply negb_true_iff in Hin.
Qed.

Lemma endpoints_no_digit (e : endpoint) :
  In e endpoints -> string_forallb (fun c => negb (isDigit c)) e = true.
Proof.
  intros Hin.
  assert (H : forallb (string_forallb (fun c => negb (isDigit c))) endpoints
              = true) by reflexivity.
  rewrite forallb_forall in H. now apply H.
Qed.

Lemma commaString_read_back (ints : list Z) :
  commaStringToInts (intsToCommaString ints) = Some ints.
Proof.
  rewrite intsToCommaString_concat. unfold commaStringToInts.
  destruct ints as [|i rest]; [reflexivity|].
  destruct (String.eqb_spec (String.concat "," (map Itoa (i :: rest))) "")
    as [He|_]; [now apply concat_Itoa_nonempty in He|].
  change "," with (String comma "").
  rewrite splitOn_concat.
  - apply sequence_Atoi_Itoa.
  - discriminate.
  - apply Forall_forall. intros w Hw.
    apply in_map_iff in Hw. destruct Hw as (j & <- & _).
    apply Itoa_no_comma.
Qed.

Lemma intsToCommaString_inj (ints ints' : list Z) :
  intsToCommaString ints = intsToCommaString ints' -> ints = ints'.
Proof.
  intros H. pose proof (commaString_read_back ints) as H1.
  rewrite H, commaString_read_back in H1. now injection H1.
Qed.

Lemma singleURL_ok_inv (c : Client) (end_ : endpoint) (id : Z)
    (opts : list OptionFunc) (url : string) :
  singleURL c end_ id opts = Ok url ->
  0 <= id
  /\ exists opt, newOpt opts = Ok opt
                 /\ url = removeAll space (rootURL c ++ end_)
                          ++ Itoa id ++ query opt.
Proof.
  intros H.
  assert (Hid : 0 <= id).
  { unfold singleURL in H. destruct (id <? 0) eqn:E; [discriminate|].
    now apply Z.ltb_ge in E. }
  split; [exact Hid|].
  destruct (newOpt opts) as [opt|e|m] eqn:Hopt.
  - exists opt. split; [reflexivity|].
    rewrite (singleURL_nonneg c end_ id opts opt Hid Hopt) in H.
    now injection H.
  - unfold singleURL in H. apply Z.ltb_ge in Hid.
    rewrite Hid, Hopt in H. discriminate.
  - unfold singleURL in H. apply Z.ltb_ge in Hid.
    rewrite Hid, Hopt in H. discriminate.
Qed.

Lemma multiURL_ok_inv (c : Client) (end_ : endpoint) (ids : list Z)
    (opts : list OptionFunc) (url : string) :
  multiURL c end_ ids opts = Ok url ->
  Forall (fun id => 0 <= id) ids
  /\ exists opt, newOpt opts = Ok opt
                 /\ url = removeAll space (rootURL c ++ end_)
                          ++ String.concat "," (map Itoa ids) ++ query opt.
Proof.
  intros H.
  assert (Hall : Forall (fun id => 0 <= id) ids).
  { unfold multiURL in H.
    destruct (checkIDs_outcome ids) as [[Hc Hall] | [Hc Hex]];
      [exact Hall | rewrite Hc in H; discriminate]. }
  split; [exact Hall|].
  rewrite (multiURL_nonneg c end_ ids opts Hall) in H.
  destruct (newOpt opts) as [opt|e|m]; simpl in H; try discriminate.
  exists opt. split; [reflexivity | now injection H].
Qed.

(** ** Further properties of the package *)

(** X1.  intsToStrings yields one string per int, in the order of the
    input: the n-th string is the decimal representation of the n-th int,
    and reading the strings back as decimal numbers gives the ints. *)
Theorem intsToStrings_one_string_per_int (ints : list Z) :
  length (intsToStrings ints) = length ints
  /\ (forall n, nth_error (intsToStrings ints) n
                = option_map Itoa (nth_error ints n))
  /\ map Atoi (intsToStrings ints) = map Some ints.
Proof.
  rewrite intsToStrings_map. split; [|split].
  - apply length_map.
  - intros n. apply nth_error_map.
  - induction ints as [|i rest IH]; simpl; [reflexivity|].
    now rewrite Atoi_Itoa, IH.
Qed.

(** X2.  intsToCommaString loses nothing: splitting its result at the
    commas and reading the pieces as decimal numbers gives back the list of
    ints, so two lists with the same string are the same list; the string is
    empty for the empty list only. *)
Theorem intsToCommaString_round_trip (ints : list Z) :
  commaStringToInts (intsToCommaString ints) = Some ints
  /\ (forall ints', intsToCommaString ints = intsToCommaString ints' ->
                    ints = ints')
  /\ (intsToCommaString ints = "" <-> ints = []).
Proof.
  split; [apply commaString_read_back | split].
  - apply intsToCommaString_inj.
  - split.
    + intros H. destruct ints as [|i rest]; [reflexivity|].
      rewrite intsToCommaString_concat in H.
      now apply concat_Itoa_nonempty in H.
    + intros ->. reflexivity.
Qed.

(** X3.  What the URL builders can answer.  singleURL fails with
    ErrNegativeID exactly for a negative id and otherwise only with an error
    of newOpt; multiURL fails with ErrNegativeID when some id is negative and
    otherwise only with an error of newOpt.  A URL is returned only when no
    id is negative and the options finalize, and it is then root and endpoint
    without spaces, the id (or the comma-joined ids) and the query. *)
Theorem URL_builders_outcomes
    (c : Client) (end_ : endpoint) (opts : list OptionFunc) :
  (forall id e, singleURL c end_ id opts = Err e ->
     (id < 0 /\ e = ErrNegativeID) \/ (0 <= id /\ newOpt opts = Err e))
  /\ (forall id url, singleURL c end_ id opts = Ok url ->
        0 <= id
        /\ exists opt, newOpt opts = Ok opt
                       /\ url = removeAll space (rootURL c ++ end_)
                                ++ Itoa id ++ query opt)
  /\ (forall ids e, multiURL c end_ ids opts = Err e ->
        (Exists (fun id => id < 0) ids /\ e = ErrNegativeID)
        \/ (Forall (fun id => 0 <= id) ids /\ newOpt opts = Err e))
  /\ (forall ids url, multiURL c end_ ids opts = Ok url ->
        Forall (fun id => 0 <= id) ids
        /\ exists opt, newOpt opts = Ok opt
                       /\ url = removeAll space (rootURL c ++ end_)
                                ++ String.concat "," (map Itoa ids)
                                ++ query opt).
Proof.
  split; [|split; [|split]].
  - intros id e H. unfold singleURL in H.
    destruct (id <? 0) eqn:E.
    + left. apply Z.ltb_lt in E. split; [exact E | congruence].
    + right. apply Z.ltb_ge in E. split; [exact E|].
      destruct (newOpt opts); simpl in H; congruence.
  - intros id url. apply singleURL_ok_inv.
  - intros ids e H. unfold multiURL in H.
    destruct (checkIDs_outcome ids) as [[Hc Hall] | [Hc Hex]];
      rewrite Hc in H; simpl in H.
    + right. split; [exact Hall|].
      destruct (newOpt opts); simpl in H; congruence.
    + left. split; [exact Hex | congruence].
  - intros ids url. apply multiURL_ok_inv.
Qed.

(** X4.  For a given client, endpoint and option list, multiURL never gives
    the same URL for two different id lists. *)
Theorem multiURL_injective_in_ids
    (c : Client) (end_ : endpoint) (ids1 ids2 : list Z)
    (opts : list OptionFunc) (url : string) :
  multiURL c end_ ids1 opts = Ok url ->
  multiURL c end_ ids2 opts = Ok url ->
  ids1 = ids2.
Proof.
  intros H1 H2.
  destruct (multiURL_ok_inv _ _ _ _ _ H1) as (_ & opt1 & Ho1 & Hu1).
  destruct (multiURL_ok_inv _ _ _ _ _ H2) as (_ & opt2 & Ho2 & Hu2).
  rewrite Ho1 in Ho2. injection Ho2 as <-.
  rewrite Hu1 in Hu2.
  apply append_cancel_l, append_cancel_r in Hu2.
  rewrite <- !intsToCommaString_concat in Hu2.
  now apply intsToCommaString_inj.
Qed.

Lemma root_endpoint_no_space (e : endpoint) :
  In e endpoints -> contains space (igdbURL ++ e) = false.
Proof.
  intros Hin. rewrite contains_app, (endpoints_no_space e Hin). reflexivity.
Qed.

(** X5.  For a given client and option list, singleURL never gives the same
    URL for two different pairs of a declared endpoint and an id. *)
Theorem singleURL_injective_on_declared_endpoints
    (c : Client) (e1 e2 : endpoint) (id1 id2 : Z)
    (opts : list OptionFunc) (url : string) :
  In e1 endpoints ->
  In e2 endpoints ->
  singleURL c e1 id1 opts = Ok url ->
  singleURL c e2 id2 opts = Ok url ->
  e1 = e2 /\ id1 = id2.
Proof.
  intros He1 He2 H1 H2.
  destruct (singleURL_ok_inv _ _ _ _ _ H1) as (Hid1 & opt1 & Ho1 & Hu1).
  destruct (singleURL_ok_inv _ _ _ _ _ H2) as (Hid2 & opt2 & Ho2 & Hu2).
  rewrite Ho1 in Ho2. injection Ho2 as <-.
  rewrite Hu1 in Hu2.
  rewrite !removeAll_app in Hu2.
  rewrite (removeAll_none _ _ (endpoints_no_space _ He1)) in Hu2.
  rewrite (removeAll_none _ _ (endpoints_no_space _ He2)) in Hu2.
  rewrite !append_assoc in Hu2. apply append_cancel_l in Hu2.
  rewrite <- !append_assoc in Hu2. apply append_cancel_r in Hu2.
  destruct (digits_split e1 e2 (Itoa id1) (Itoa id2)
              (endpoints_no_digit _ He1) (endpoints_no_digit _ He2)
              (Itoa_digits _ Hid1) (Itoa_digits _ Hid2)
              (Itoa_nonempty id1) (Itoa_nonempty id2) Hu2) as [He Hd].
  split; [exact He | now apply Itoa_injective].
Qed.

(** X6.  The search URL is the multi-entity URL of the empty id list for
    the options followed by the search option: the term goes into the
    options, after those of the caller, and never into the path.  It fails
    only when newOpt does. *)
Theorem searchURL_is_multiURL_without_ids
    (c : Client) (end_ : endpoint) (qry : string) (opts : list OptionFunc) :
  searchURL c end_ qry opts = multiURL c end_ [] (opts ++ [optSearch qry])
  /\ searchURL c end_ qry opts
     = outcome_map
         (fun opt => removeAll space (rootURL c ++ end_) ++ query opt)
         (newOpt (opts ++ [optSearch qry])).
Proof.
  split.
  - unfold searchURL, multiURL. simpl.
    change (intsToCommaString []) with "".
    now rewrite !append_nil_r.
  - unfold searchURL.
    destruct (newOpt (opts ++ [optSearch qry])); simpl; try reflexivity.
    now rewrite encodeURL_query.
Qed.

(** X7.  With the client of NewClient and a declared endpoint nothing is
    stripped: the URLs are the base URL, the endpoint path, the id (or the
    comma-joined ids, or nothing for a search) and the query. *)
Theorem NewClient_URLs_keep_base_and_endpoint
    (DefaultClient : Request -> outcome Response) (e : endpoint)
    (opts : list OptionFunc) (opt : Values) :
  In e endpoints ->
  newOpt opts = Ok opt ->
  (forall id, 0 <= id ->
     singleURL (NewClient DefaultClient) e id opts
     = Ok (igdbURL ++ e ++ Itoa id ++ query opt))
  /\ (forall ids, Forall (fun id => 0 <= id) ids ->
        multiURL (NewClient DefaultClient) e ids opts
        = Ok (igdbURL ++ e ++ String.concat "," (map Itoa ids) ++ query opt))
  /\ (forall qry opt', newOpt (opts ++ [optSearch qry]) = Ok opt' ->
        searchURL (NewClient DefaultClient) e qry opts
        = Ok (igdbURL ++ e ++ query opt')).
Proof.
  intros He Hopt.
  pose proof (removeAll_none _ _ (root_endpoint_no_space e He)) as Hclean.
  split; [|split].
  - intros id Hid.
    rewrite (singleURL_nonneg _ _ _ _ opt Hid Hopt).
    change (rootURL (NewClient DefaultClient)) with igdbURL.
    now rewrite Hclean, append_assoc.
  - intros ids Hids.
    rewrite (multiURL_nonneg _ _ _ _ Hids), Hopt. unfold outcome_map.
    change (rootURL (NewClient DefaultClient)) with igdbURL.
    now rewrite Hclean, append_assoc.
  - intros qry opt' Hq. unfold searchURL. rewrite Hq. unfold obind.
    rewrite encodeURL_query.
    change (rootURL (NewClient DefaultClient)) with igdbURL.
    now rewrite Hclean, append_assoc.
Qed.

Lemma distinctb_NoDup (l : list string) : distinctb l = true -> NoDup l.
Proof.
  induction l as [|x rest IH]; simpl; intros H; [constructor|].
  apply andb_true_iff in H. destruct H as [Hx Hrest].
  constructor; [|now apply IH].
  intros Hin. apply negb_true_iff in Hx.
  assert (Hex : existsb (String.eqb x) rest = true).
  { apply existsb_exists. exists x. split; [exact Hin | apply String.eqb_refl]. }
  congruence.
Qed.

(** X8.  The table of endpoints: the twenty-two paths are pairwise
    different, hold neither a space nor a digit, and all end in a slash
    except that of PulseSourceEndpoint, after which an id or "meta" follows
    with no separator. *)
Theorem endpoints_are_distinct_paths :
  NoDup endpoints
  /\ length endpoints = 22%nat
  /\ (forall e, In e endpoints ->
        contains space e = false
        /\ string_forallb (fun c => negb (isDigit c)) e = true
        /\ (e = PulseSourceEndpoint \/ last_byte e = Some "/"%char))
  /\ last_byte PulseSourceEndpoint = Some "s"%char.
Proof.
  split; [|split; [|split]].
  - apply distinctb_NoDup. reflexivity.
  - reflexivity.
  - intros e He.
    split; [now apply endpoints_no_space|].
    split; [now apply endpoints_no_digit|].
    assert (H : forallb (fun e => String.eqb e PulseSourceEndpoint
                                  || match last_byte e with
                                     | Some c => Ascii.eqb c "/"
                                     | None => false
                                     end) endpoints = true) by reflexivity.
    rewrite forallb_forall in H. apply H in He.
    apply orb_true_iff in He. destruct He as [He | He].
    + left. now apply String.eqb_eq.
    + right. destruct (last_byte e) as [ch|]; [|discriminate].
      apply Ascii.eqb_eq in He. now subst ch.
  - reflexivity.
Qed.

Lemma get_trace_cases {A} (c : Client) (url : string) (result : decoder A)
    (tr : list Request) :
  snd (get c url result tr)
  = match url_Parse url with
    | Some _ => tr
    | None => (tr ++ [getRequest url])%list
    end.
Proof.
  destruct (url_Parse url) as [e|] eqn:Hurl.
  - unfold get, bind, lift, NewRequest. now rewrite Hurl.
  - now apply get_trace.
Qed.

(** The accessors share one shape: a URL builder, then [get], then a step
    that reaches no network. *)
Lemma accessor_trace {A B} (o : outcome string) (c : Client)
    (result : decoder A) (k : A -> outcome B) (tr : list Request) :
  snd ((url <- lift o ;; x <- get c url result ;; lift (k x)) tr) = tr
  \/ exists url,
       o = Ok url
       /\ url_Parse url = None
       /\ snd ((url <- lift o ;; x <- get c url result ;; lift (k x)) tr)
          = (tr ++ [getRequest url])%list.
Proof.
  unfold bind at 1 3. unfold lift at 1 3.
  destruct o as [url|e|m]; simpl; try (now left).
  pose proof (get_trace_cases c url result tr) as Ht.
  unfold bind, lift.
  destruct (get c url result tr) as [[x|e|m] tr'] eqn:Hg; simpl in *;
    (destruct (url_Parse url) eqn:Hurl;
     [left; exact Ht
     | right; exists url;
       split; [reflexivity | split; [first [exact Hurl | reflexivity] | exact Ht]]]).
Qed.

Lemma decode_elems_length {A} (d : decoder A) (l : list json) (r : list A) :
  decode_elems d l = Ok r -> length r = length l.
Proof.
  revert r. induction l as [|j rest IH]; simpl; intros r H.
  - injection H as <-. reflexivity.
  - destruct (d j) as [a|e|m]; try discriminate.
    destruct (decode_elems d rest) as [r'|e|m]; simpl in H; try discriminate.
    injection H as <-. simpl. now rewrite (IH r' eq_refl).
Qed.

Lemma decode_elems_ptr_null {A} (d : decoder A) (l : list json)
    (r : list (option A)) (n : nat) :
  decode_elems (decode_ptr d) l = Ok r ->
  nth_error l n = Some JNull ->
  nth_error r n = Some None.
Proof.
  revert r n. induction l as [|j rest IH]; intros r n H Hn.
  - destruct n; discriminate.
  - simpl in H.
    destruct (decode_ptr d j) as [a|e|m] eqn:Hj; try discriminate.
    destruct (decode_elems (decode_ptr d) rest) as [r'|e|m];
      simpl in H; try discriminate.
    injection H as <-.
    destruct n as [|n]; simpl in *.
    + injection Hn as ->. simpl in Hj. now injection Hj as <-.
    + now apply IH.
Qed.

(** X9.  The order in which get reports failures: a URL that does not parse
    stops it before any request; after the request, a transport error comes
    first, then the error of the status check (the body is not looked at),
    then a failure to read the body, and only then the outcome of decoding
    the body. *)
Theorem get_reports_first_failure {A}
    (c : Client) (url : string) (result : decoder A) (tr : list Request) :
  (forall e, url_Parse url = Some e -> get c url result tr = (Err e, tr))
  /\ (url_Parse url = None ->
      (forall e, http c (getRequest url) = Err e ->
         get c url result tr = (Err e, (tr ++ [getRequest url])%list))
      /\ (forall resp, http c (getRequest url) = Ok resp ->
            (forall e, checkError c resp = Some e ->
               get c url result tr = (Err e, (tr ++ [getRequest url])%list))
            /\ (checkError c resp = None ->
                (forall e, Body resp = Err e ->
                   get c url result tr
                   = (Err e, (tr ++ [getRequest url])%list))
                /\ (forall b, Body resp = Ok b ->
                      get c url result tr
                      = (Unmarshal b result,
                         (tr ++ [getRequest url])%list))))).
Proof.
  split.
  - intros e Hurl. unfold get, bind, lift, NewRequest. now rewrite Hurl.
  - intros Hurl.
    assert (Hstart : get c url result tr
              = match http c (getRequest url) with
                | Ok resp =>
                    match checkError c resp with
                    | Some e => (Err e, (tr ++ [getRequest url])%list)
                    | None =>
                        match Body resp with
                        | Ok b => (Unmarshal b result,
                                   (tr ++ [getRequest url])%list)
                        | Err e => (Err e, (tr ++ [getRequest url])%list)
                        | Panic m => (Panic m, (tr ++ [getRequest url])%list)
                        end
                    end
                | Err e => (Err e, (tr ++ [getRequest url])%list)
                | Panic m => (Panic m, (tr ++ [getRequest url])%list)
                end).
    { unfold get, bind, lift, Do, NewRequest. rewrite Hurl.
      cbv beta iota. rewrite get_request_built.
      destruct (http c (getRequest url)) as [resp|e|m]; try reflexivity.
      destruct (checkError c resp); simpl; try reflexivity.
      all: destruct (Body resp); reflexivity. }
    rewrite Hstart. split.
    + intros e He. now rewrite He.
    + intros resp Hresp. rewrite Hresp. split.
      * intros e He. now rewrite He.
      * intros Hchk. rewrite Hchk. split.
        -- intros e He. now rewrite He.
        -- intros b Hb. now rewrite Hb.
Qed.

(** X10.  No accessor sends more than one request, and none retries: the
    trace of requests is either left as it was or extended by the single
    request that get builds for the URL its builder returned; what was in the
    trace before is never changed. *)
Theorem accessors_send_at_most_one_request
    (c : Client) (opts : list OptionFunc) (tr : list Request) :
  (forall id,
     snd (GetGame c id opts tr) = tr
     \/ exists url, singleURL c GameEndpoint id opts = Ok url
                    /\ snd (GetGame c id opts tr)
                       = (tr ++ [getRequest url])%list)
  /\ (forall id,
        snd (GetFeed c id opts tr) = tr
        \/ exists url, singleURL c FeedEndpoint id opts = Ok url
                       /\ snd (GetFeed c id opts tr)
                          = (tr ++ [getRequest url])%list)
  /\ (forall ids,
        snd (GetGames c ids opts tr) = tr
        \/ exists url, multiURL c GameEndpoint ids opts = Ok url
                       /\ snd (GetGames c ids opts tr)
                          = (tr ++ [getRequest url])%list)
  /\ (forall ids,
        snd (GetFeeds c ids opts tr) = tr
        \/ exists url, multiURL c FeedEndpoint ids opts = Ok url
                       /\ snd (GetFeeds c ids opts tr)
                          = (tr ++ [getRequest url])%list)
  /\ (forall qry,
        snd (SearchGames c qry opts tr) = tr
        \/ exists url, searchURL c GameEndpoint qry opts = Ok url
                       /\ snd (SearchGames c qry opts tr)
                          = (tr ++ [getRequest url])%list)
  /\ (forall end_,
        snd (GetEndpointModel c end_ tr) = tr
        \/ snd (GetEndpointModel c end_ tr)
           = (tr ++ [getRequest (rootURL c ++ end_ ++ "meta")])%list).
Proof.
  repeat apply conj.
  - intros id.
    destruct (accessor_trace (singleURL c GameEndpoint id opts) c
                (decode_slice decodeGame) (fun g => index g 0) tr)
      as [H | (url & Hu & _ & H)]; [now left | right; now exists url].
  - intros id.
    destruct (accessor_trace (singleURL c FeedEndpoint id opts) c
                (decode_slice decodeFeed) (fun f => index f 0) tr)
      as [H | (url & Hu & _ & H)]; [now left | right; now exists url].
  - intros ids.
    destruct (accessor_trace (multiURL c GameEndpoint ids opts) c
                (decode_slice (decode_ptr decodeGame)) (fun g => Ok g) tr)
      as [H | (url & Hu & _ & H)]; [now left | right; now exists url].
  - intros ids.
    destruct (accessor_trace (multiURL c FeedEndpoint ids opts) c
                (decode_slice (decode_ptr decodeFeed)) (fun f => Ok f) tr)
      as [H | (url & Hu & _ & H)]; [now left | right; now exists url].
  - intros qry.
    destruct (accessor_trace (searchURL c GameEndpoint qry opts) c
                (decode_slice (decode_ptr decodeGame)) (fun g => Ok g) tr)
      as [H | (url & Hu & _ & H)]; [now left | right; now exists url].
  - intros end_.
    destruct (accessor_trace (Ok (rootURL c ++ end_ ++ "meta")) c
                (decode_slice decode_string) (fun f => Ok f) tr)
      as [H | (url & Hu & _ & H)]; [now left | right].
    injection Hu as <-. exact H.
Qed.

(** X11.  When the server's body is an array, GetGame and GetFeed return
    its first element and drop the others if all the elements decode; if
    some element does not decode, the call fails with the decoder's error
    even when the first element is fine. *)
Theorem Get_returns_first_element
    (c : Client) (id : Z) (opts : list OptionFunc) (opt : Values)
    (tr : list Request) (resp : Response) (b : string) (js : list json) :
  0 <= id ->
  newOpt opts = Ok opt ->
  checkError c resp = None ->
  Body resp = Ok b ->
  parseJSON b = Some (JArr js) ->
  (url_Parse (encodeURL opt (rootURL c ++ GameEndpoint ++ Itoa id)) = None ->
   http c (getRequest (encodeURL opt (rootURL c ++ GameEndpoint ++ Itoa id)))
   = Ok resp ->
   (forall g gs, decode_elems decodeGame js = Ok (g :: gs) ->
      GetGame c id opts tr
      = (Ok g, (tr ++ [getRequest (encodeURL opt (rootURL c ++ GameEndpoint
                                                   ++ Itoa id))])%list))
   /\ (forall e, decode_elems decodeGame js = Err e ->
         GetGame c id opts tr
         = (Err e, (tr ++ [getRequest (encodeURL opt (rootURL c ++ GameEndpoint
                                                      ++ Itoa id))])%list)))
  /\ (url_Parse (encodeURL opt (rootURL c ++ FeedEndpoint ++ Itoa id)) = None ->
      http c (getRequest (encodeURL opt (rootURL c ++ FeedEndpoint ++ Itoa id)))
      = Ok resp ->
      (forall f fs, decode_elems decodeFeed js = Ok (f :: fs) ->
         GetFeed c id opts tr
         = (Ok f, (tr ++ [getRequest (encodeURL opt (rootURL c ++ FeedEndpoint
                                                      ++ Itoa id))])%list))
      /\ (forall e, decode_elems decodeFeed js = Err e ->
            GetFeed c id opts tr
            = (Err e, (tr ++ [getRequest (encodeURL opt
                                            (rootURL c ++ FeedEndpoint
                                             ++ Itoa id))])%list))).
Proof.
  intros Hid Hopt Hchk Hbody Hparse.
  apply Z.ltb_ge in Hid.
  assert (Hget : forall A (d : decoder A) url,
             url_Parse url = None ->
             http c (getRequest url) = Ok resp ->
             get c url (decode_slice d) tr
             = (decode_elems d js, (tr ++ [getRequest url])%list)).
  { intros A d url Hurl Hdo.
    rewrite (get_reaches_body _ _ _ _ resp b) by assumption.
    unfold Unmarshal. now rewrite Hparse. }
  split.
  - intros Hurl Hdo. split.
    + intros g gs Hdec.
      unfold GetGame, bind, lift, singleURL. rewrite Hid, Hopt. simpl.
      now rewrite (Hget _ _ _ Hurl Hdo), Hdec.
    + intros e Hdec.
      unfold GetGame, bind, lift, singleURL. rewrite Hid, Hopt. simpl.
      now rewrite (Hget _ _ _ Hurl Hdo), Hdec.
  - intros Hurl Hdo. split.
    + intros f fs Hdec.
      unfold GetFeed, bind, lift, singleURL. rewrite Hid, Hopt. simpl.
      now rewrite (Hget _ _ _ Hurl Hdo), Hdec.
    + intros e Hdec.
      unfold GetFeed, bind, lift, singleURL. rewrite Hid, Hopt. simpl.
      now rewrite (Hget _ _ _ Hurl Hdo), Hdec.
Qed.

(** X12.  The list GetGames and GetFeeds return follows the body, not the
    ids asked for: it has one entry per element of the array, and the entry
    of a null element is the nil pointer. *)
Theorem GetGames_one_entry_per_element
    (c : Client) (ids : list Z) (opts : list OptionFunc) (opt : Values)
    (tr : list Request) (resp : Response) (b : string) (js : list json) :
  Forall (fun id => 0 <= id) ids ->
  newOpt opts = Ok opt ->
  checkError c resp = None ->
  Body resp = Ok b ->
  parseJSON b = Some (JArr js) ->
  (forall r,
     url_Parse (encodeURL opt (rootURL c ++ GameEndpoint
                               ++ intsToCommaString ids)) = None ->
     http c (getRequest (encodeURL opt (rootURL c ++ GameEndpoint
                                        ++ intsToCommaString ids))) = Ok resp ->
     fst (GetGames c ids opts tr) = Ok r ->
     length r = length js
     /\ (forall n, nth_error js n = Some JNull -> nth_error r n = Some None))
  /\ (forall r,
        url_Parse (encodeURL opt (rootURL c ++ FeedEndpoint
                                  ++ intsToCommaString ids)) = None ->
        http c (getRequest (encodeURL opt (rootURL c ++ FeedEndpoint
                                           ++ intsToCommaString ids)))
        = Ok resp ->
        fst (GetFeeds c ids opts tr) = Ok r ->
        length r = length js
        /\ (forall n, nth_error js n = Some JNull -> nth_error r n = Some None)).
Proof.
  intros Hids Hopt Hchk Hbody Hparse.
  split.
  - intros r Hurl Hdo Hr.
    assert (Hdec : decode_elems (decode_ptr decodeGame) js = Ok r).
    { unfold GetGames, bind, lift, ret, multiURL in Hr.
      rewrite (checkIDs_nonneg _ Hids), Hopt in Hr. simpl in Hr.
      rewrite (get_reaches_body _ _ _ _ resp b) in Hr by assumption.
      unfold Unmarshal in Hr. rewrite Hparse in Hr. simpl in Hr.
      destruct (decode_elems (decode_ptr decodeGame) js); simpl in Hr;
        congruence. }
    split.
    + exact (decode_elems_length _ _ _ Hdec).
    + intros n Hn. exact (decode_elems_ptr_null _ _ _ _ Hdec Hn).
  - intros r Hurl Hdo Hr.
    assert (Hdec : decode_elems (decode_ptr decodeFeed) js = Ok r).
    { unfold GetFeeds, bind, lift, ret, multiURL in Hr.
      rewrite (checkIDs_nonneg _ Hids), Hopt in Hr. simpl in Hr.
      rewrite (get_reaches_body _ _ _ _ resp b) in Hr by assumption.
      unfold Unmarshal in Hr. rewrite Hparse in Hr. simpl in Hr.
      destruct (decode_elems (decode_ptr decodeFeed) js); simpl in Hr;
        congruence. }
    split.
    + exact (decode_elems_length _ _ _ Hdec).
    + intros n Hn. exact (decode_elems_ptr_null _ _ _ _ Hdec Hn).
Qed.

(** X13.  GetEndpointModel on the bodies at the edge: the empty array and
    null give the empty list and no error; an empty body, or one that is not
    JSON, gives the syntax error of the decoder; an object gives its type
    error.  A URL that does not parse stops the call before any request. *)
Theorem GetEndpointModel_edge_bodies
    (c : Client) (end_ : endpoint) (tr : list Request) :
  (forall e, url_Parse (rootURL c ++ end_ ++ "meta") = Some e ->
     GetEndpointModel c end_ tr = (Err e, tr))
  /\ (forall resp b,
        url_Parse (rootURL c ++ end_ ++ "meta") = None ->
        http c (getRequest (rootURL c ++ end_ ++ "meta")) = Ok resp ->
        checkError c resp = None ->
        Body resp = Ok b ->
        (parseJSON b = Some (JArr []) ->
         fst (GetEndpointModel c end_ tr) = Ok [])
        /\ (parseJSON b = Some JNull ->
            fst (GetEndpointModel c end_ tr) = Ok [])
        /\ (b = "" \/ parseJSON b = None ->
            fst (GetEndpointModel c end_ tr) = Err SyntaxError)
        /\ (forall ms, parseJSON b = Some (JObj ms) ->
              fst (GetEndpointModel c end_ tr)
              = Err (UnmarshalTypeError "object"))).
Proof.
  split.
  - intros e Hurl.
    unfold GetEndpointModel, bind, ret, get, lift, NewRequest.
    now rewrite Hurl.
  - intros resp b Hurl Hdo Hchk Hbody.
    assert (Hg : fst (GetEndpointModel c end_ tr)
                 = Unmarshal b (decode_slice decode_string)).
    { unfold GetEndpointModel, bind, ret.
      rewrite (get_reaches_body _ _ _ _ resp b) by auto.
      destruct (Unmarshal b (decode_slice decode_string)); reflexivity. }
    rewrite Hg. unfold Unmarshal.
    split; [|split; [|split]].
    + intros Hp. now rewrite Hp.
    + intros Hp. now rewrite Hp.
    + intros [-> | Hp]; [now rewrite parseJSON_empty | now rewrite Hp].
    + intros ms Hp. now rewrite Hp.
Qed.

(** X14.  encodeURL and concatenation: the URL of a concatenation is the
    stripped first part followed by the URL of the second; a URL without
    spaces is kept as it is, with the query after it; with an empty query
    encoding twice is encoding once; the result is never longer than the
    input, the question mark and the encoded options together. *)
Theorem encodeURL_composes {E : Type} `{Encoder E}
    (enc : E) (a b : string) :
  encodeURL enc (a ++ b) = removeAll space a ++ encodeURL enc b
  /\ (contains space a = false -> encodeURL enc a = a ++ query enc)
  /\ (Encode enc = "" -> encodeURL enc (encodeURL enc a) = encodeURL enc a)
  /\ (String.length (encodeURL enc a)
      <= String.length a + 1 + String.length (Encode enc))%nat.
Proof.
  split; [|split; [|split]].
  - now rewrite !encodeURL_query, removeAll_app, append_assoc.
  - intros Ha. now rewrite encodeURL_query, (removeAll_none _ _ Ha).
  - intros He. unfold encodeURL. rewrite He. simpl.
    apply removeAll_idempotent.
  - rewrite encodeURL_query, length_append.
    pose proof (length_removeAll space a) as Hl.
    unfold query. destruct (String.eqb (Encode enc) ""); simpl; lia.
Qed.

(** X15.  The list accessors stop before the request on an error of their
    URL builder: GetGames and GetFeeds return ErrNegativeID for a list that
    holds a negative id, SearchGames returns the error of newOpt, and in
    both cases the trace of requests is left as it was. *)
Theorem list_accessors_stop_on_builder_errors
    (c : Client) (opts : list OptionFunc) (tr : list Request) :
  (forall ids, Exists (fun id => id < 0) ids ->
     GetGames c ids opts tr = (Err ErrNegativeID, tr)
     /\ GetFeeds c ids opts tr = (Err ErrNegativeID, tr))
  /\ (forall qry e, newOpt (opts ++ [optSearch qry]) = Err e ->
        SearchGames c qry opts tr = (Err e, tr)).
Proof.
  split.
  - intros ids Hneg.
    unfold GetGames, GetFeeds, bind, lift, multiURL.
    now rewrite (checkIDs_negative _ Hneg).
  - intros qry e He.
    unfold SearchGames, bind, lift, searchURL. now rewrite He.
Qed.

(** X16.  Asking for the one-element list [id] sends what asking for id
    sends: GetGames and GetGame (GetFeeds and GetFeed) leave the same trace
    of requests, which holds the same single request when one is made. *)
Theorem list_of_one_sends_the_request_of_get
    (c : Client) (id : Z) (opts : list OptionFunc) (tr : list Request) :
  snd (GetGames c [id] opts tr) = snd (GetGame c id opts tr)
  /\ snd (GetFeeds c [id] opts tr) = snd (GetFeed c id opts tr).
Proof.
  assert (Hsame : forall end_,
             multiURL c end_ [id] opts = singleURL c end_ id opts).
  { intros end_. unfold multiURL, singleURL. simpl.
    destruct (id <? 0); reflexivity. }
  assert (Hshape : forall A B A' B' (o : outcome string)
                     (d : decoder A) (k : A -> outcome B)
                     (d' : decoder A') (k' : A' -> outcome B'),
             snd ((url <- lift o ;; x <- get c url d ;; lift (k x)) tr)
             = snd ((url <- lift o ;; x <- get c url d' ;; lift (k' x)) tr)).
  { intros A B A' B' o d k d' k'.
    unfold bind at 1 3. unfold lift at 1 3.
    destruct o as [url|e|m]; simpl; try reflexivity.
    pose proof (get_trace_cases c url d tr) as H1.
    pose proof (get_trace_cases c url d' tr) as H2.
    unfold bind, lift.
    destruct (get c url d tr) as [[x|e|m] t1];
      destruct (get c url d' tr) as [[x'|e'|m'] t2];
      simpl in *; congruence. }
  split.
  - unfold GetGames, GetGame. rewrite Hsame.
    exact (Hshape _ _ _ _ _ (decode_slice (decode_ptr decodeGame))
                  (fun g => Ok g) (decode_slice decodeGame)
                  (fun g => index g 0)).
  - unfold GetFeeds, GetFeed. rewrite Hsame.
    exact (Hshape _ _ _ _ _ (decode_slice (decode_ptr decodeFeed))
                  (fun f => Ok f) (decode_slice decodeFeed)
                  (fun f => index f 0)).
Qed.

End Igdb.

(** ** Facts about the option model *)

Lemma build_app (pre post : list Options.Option) (o : Options.Option) :
  Options.build (pre ++ o :: post)
  = fold_left Options.apply post (Options.apply (Options.build pre) o).
Proof. unfold Options.build. now rewrite fold_left_app. Qed.

Lemma limit_kept (post : list Options.Option) (s : Options.OptionSet) :
  forallb (fun o => negb (Options.sets_limit o)) post = true ->
  Options.limit (fold_left Options.apply post s) = Options.limit s.
Proof.
  revert s. induction post as [|o post IH]; intros s H; simpl in *.
  - reflexivity.
  - apply andb_true_iff in H. destruct H as [Ho Hpost].
    rewrite (IH _ Hpost). destruct o; simpl in *; congruence.
Qed.

Lemma offset_kept (post : list Options.Option) (s : Options.OptionSet) :
  forallb (fun o => negb (Options.sets_offset o)) post = true ->
  Options.offset (fold_left Options.apply post s) = Options.offset s.
Proof.
  revert s. induction post as [|o post IH]; intros s H; simpl in *.
  - reflexivity.
  - apply andb_true_iff in H. destruct H as [Ho Hpost].
    rewrite (IH _ Hpost). destruct o; simpl in *; congruence.
Qed.

Lemma effective_limit (pre post : list Options.Option) (n : Z) :
  forallb (fun o => negb (Options.sets_limit o)) post = true ->
  Options.limit (Options.build (pre ++ Options.SetLimit n :: post)) = Some n.
Proof. intros H. rewrite build_app, (limit_kept _ _ H). reflexivity. Qed.

Lemma effective_offset (pre post : list Options.Option) (n : Z) :
  forallb (fun o => negb (Options.sets_offset o)) post = true ->
  Options.offset (Options.build (pre ++ Options.SetOffset n :: post)) = Some n.
Proof. intros H. rewrite build_app, (offset_kept _ _ H). reflexivity. Qed.

(** C5.  Limit and offset are validated when the option set is finalized,
    before any request.  A limit directive that is the last to write the
    limit makes newOpt fail with ErrOutOfRange when n <= 0 or n > 50 and lets
    it succeed when 1 <= n <= 50 (the offset being valid); an offset
    directive that is the last to write the offset makes it fail with
    ErrOutOfRange when n < 0 and lets it succeed when n >= 0 (the limit being
    valid).  An accessor given options that fail this way returns
    ErrOutOfRange and hands no request to the HTTP client. *)
Theorem limit_and_offset_validated_at_finalization :
  (forall pre post n,
      forallb (fun o => negb (Options.sets_limit o)) post = true ->
      n <= 0 \/ 50 < n ->
      Options.newOpt (pre ++ Options.SetLimit n :: post) = Err ErrOutOfRange)
  /\ (forall pre post n,
         forallb (fun o => negb (Options.sets_limit o)) post = true ->
         1 <= n <= 50 ->
         Options.offset_ok
           (Options.build (pre ++ Options.SetLimit n :: post)) = true ->
         Options.newOpt (pre ++ Options.SetLimit n :: post)
         = Ok (Options.build (pre ++ Options.SetLimit n :: post)))
  /\ (forall pre post n,
         forallb (fun o => negb (Options.sets_offset o)) post = true ->
         n < 0 ->
         Options.newOpt (pre ++ Options.SetOffset n :: post) = Err ErrOutOfRange)
  /\ (forall pre post n,
         forallb (fun o => negb (Options.sets_offset o)) post = true ->
         0 <= n ->
         Options.limit_ok
           (Options.build (pre ++ Options.SetOffset n :: post)) = true ->
         Options.newOpt (pre ++ Options.SetOffset n :: post)
         = Ok (Options.build (pre ++ Options.SetOffset n :: post)))
  /\ (forall APIkey checkError url_Parse parseJSON Game
             (decodeGame : decoder Game) c opts tr,
         Options.newOpt opts = Err ErrOutOfRange ->
         (forall id, 0 <= id ->
            GetGame _ _ Options.newOpt APIkey checkError url_Parse parseJSON
                    Game decodeGame c id opts tr = (Err ErrOutOfRange, tr))
         /\ (forall ids, Forall (fun id => 0 <= id) ids ->
               GetGames _ _ Options.newOpt APIkey checkError url_Parse
                        parseJSON Game decodeGame c ids opts tr
               = (Err ErrOutOfRange, tr))
         /\ (forall end_,
               Count _ _ Options.newOpt APIkey checkError url_Parse parseJSON
                     c end_ opts tr = (Err ErrOutOfRange, tr))).
Proof.
  repeat apply conj.
  - intros pre post n Hpost Hn.
    unfold Options.newOpt, Options.finalize, Options.limit_ok.
    rewrite (effective_limit pre post n Hpost).
    replace ((1 <=? n) && (n <=? 50)) with false; [reflexivity|].
    symmetry. apply andb_false_iff.
    destruct Hn; [left; apply Z.leb_gt | right; apply Z.leb_gt]; lia.
  - intros pre post n Hpost Hn Hoff.
    unfold Options.newOpt, Options.finalize, Options.limit_ok.
    rewrite (effective_limit pre post n Hpost), Hoff.
    replace ((1 <=? n) && (n <=? 50)) with true; [reflexivity|].
    symmetry. apply andb_true_iff. split; apply Z.leb_le; lia.
  - intros pre post n Hpost Hn.
    unfold Options.newOpt, Options.finalize, Options.offset_ok.
    rewrite (effective_offset pre post n Hpost).
    replace (0 <=? n) with false; [now rewrite andb_false_r|].
    symmetry. apply Z.leb_gt. lia.
  - intros pre post n Hpost Hn Hlim.
    unfold Options.newOpt, Options.finalize, Options.offset_ok.
    rewrite (effective_offset pre post n Hpost), Hlim.
    replace (0 <=? n) with true; [reflexivity|].
    symmetry. apply Z.leb_le. lia.
  - intros APIkey checkError url_Parse parseJSON Game decodeGame c opts tr Hopt.
    exact (option_error_makes_no_request _ _ Options.newOpt APIkey checkError
             url_Parse parseJSON Game decodeGame c opts ErrOutOfRange tr Hopt).
Qed.

(** ** The package over the option model and the fixtures *)

Notation fxSingleURL :=
  (singleURL Options.Option Options.OptionSet Options.newOpt).
Notation fxMultiURL :=
  (multiURL Options.Option Options.OptionSet Options.newOpt).
Notation fxGetGame :=
  (GetGame Options.Option Options.OptionSet Options.newOpt Fixture.key
           Fixture.checkStatus Fixture.parseURL Fixture.parse Z Fixture.decodeID).
Notation fxGetFeed :=
  (GetFeed Options.Option Options.OptionSet Options.newOpt Fixture.key
           Fixture.checkStatus Fixture.parseURL Fixture.parse Z Fixture.decodeID).
Notation fxGetGames :=
  (GetGames Options.Option Options.OptionSet Options.newOpt Fixture.key
            Fixture.checkStatus Fixture.parseURL Fixture.parse Z Fixture.decodeID).
Notation fxGetFeeds :=
  (GetFeeds Options.Option Options.OptionSet Options.newOpt Fixture.key
            Fixture.checkStatus Fixture.parseURL Fixture.parse Z Fixture.decodeID).
Notation fxSearchGames :=
  (SearchGames Options.Option Options.OptionSet Options.newOpt
               Options.optSearch Fixture.key Fixture.checkStatus
               Fixture.parseURL Fixture.parse Z Fixture.decodeID).
Notation fxCount :=
  (Count Options.Option Options.OptionSet Options.newOpt Fixture.key
         Fixture.checkStatus Fixture.parseURL Fixture.parse).
Notation fxGetEndpointModel :=
  (GetEndpointModel Fixture.key Fixture.checkStatus Fixture.parseURL
                    Fixture.parse).
Notation fxRequest := (getRequest Fixture.key).

Example GetGame_valid_response :
  fxGetGame (Fixture.testServerString 200 Fixture.bodyOneGame) 296456
            [Options.SetFields ["name"]] []
  = (Ok 296456, [fxRequest "http://127.0.0.1/games/296456?fields=name"]).
Proof. reflexivity. Qed.

Example searchURL_mass_effect :
  searchURL Options.Option Options.OptionSet Options.newOpt Options.optSearch
            (NewClient (fun _ => Err (LibError "offline"))) GameEndpoint
            "mass effect" [Options.SetLimit 5]
  = Ok "https://api-2445582011268.apicast.io/games/?limit=5&search=mass+effect".
Proof. reflexivity. Qed.

(** The root URL and the declared endpoints hold no space. *)
Lemma declared_paths_no_space :
  forallb (fun e => negb (contains space (igdbURL ++ e))) endpoints = true.
Proof. reflexivity. Qed.

(** ** Instances of the claims on the fixtures *)

Lemma encodeURL_strips_spaces_then_appends_query_witness :
  (Encode {| constValue := "" |} = ""
   /\ encodeURL {| constValue := "" |} "http://127.0.0.1/games/ 1, 2"
      = "http://127.0.0.1/games/1,2")
  /\ (Encode {| constValue := "fields=name" |} <> ""
      /\ encodeURL {| constValue := "fields=name" |} "http://127.0.0.1/games/ 1, 2"
         = "http://127.0.0.1/games/1,2?fields=name")
  /\ (contains space (Encode {| constValue := "fields=name" |}) = false
      /\ contains space
           (encodeURL {| constValue := "fields=name" |}
                      "http://127.0.0.1/games/ 1, 2") = false).
Proof.
  destruct (encodeURL_strips_spaces_then_appends_query
              {| constValue := "" |} "http://127.0.0.1/games/ 1, 2")
    as (_ & _ & Hempty & _ & _).
  destruct (encodeURL_strips_spaces_then_appends_query
              {| constValue := "fields=name" |} "http://127.0.0.1/games/ 1, 2")
    as (_ & _ & _ & Hquery & Hclean).
  split; [|split].
  - split; [reflexivity | apply Hempty; reflexivity].
  - split; [discriminate | apply Hquery; discriminate].
  - split; [reflexivity | apply Hclean; reflexivity].
Defined.

Lemma multiURL_joins_ids_with_commas_witness :
  ([296570; 714772; 124499] <> []
   /\ Forall (fun id => 0 <= id) [296570; 714772; 124499]
   /\ Options.newOpt [Options.SetLimit 5]
      = Ok (Options.build [Options.SetLimit 5])
   /\ contains space
        (rootURL (Fixture.testServerString 200 "") ++ PulseEndpoint) = false
   /\ fxMultiURL (Fixture.testServerString 200 "") PulseEndpoint
                 [296570; 714772; 124499] [Options.SetLimit 5]
      = Ok "http://127.0.0.1/pulses/296570,714772,124499?limit=5")
  /\ (Exists (fun id => id < 0) [-500]
      /\ fxMultiURL (Fixture.testServerString 200 "") PulseEndpoint
                    [-500] [Options.SetLimit 5]
         = Err ErrNegativeID).
Proof.
  assert (Hne : [296570; 714772; 124499] <> []) by discriminate.
  assert (Hids : Forall (fun id => 0 <= id) [296570; 714772; 124499])
    by (repeat constructor; lia).
  assert (Hneg : Exists (fun id => id < 0) [-500]) by (constructor; lia).
  destruct (multiURL_joins_ids_with_commas
              Options.Option Options.OptionSet Options.newOpt
              (Fixture.testServerString 200 "") PulseEndpoint
              [296570; 714772; 124499] [Options.SetLimit 5]) as [Hok _].
  destruct (multiURL_joins_ids_with_commas
              Options.Option Options.OptionSet Options.newOpt
              (Fixture.testServerString 200 "") PulseEndpoint
              [-500] [Options.SetLimit 5]) as [_ Herr].
  destruct (Hok (Options.build [Options.SetLimit 5]) Hne Hids eq_refl)
    as [_ Hpath].
  split.
  - split; [exact Hne|].
    split; [exact Hids|].
    split; [reflexivity|].
    split; [reflexivity | exact (Hpath eq_refl)].
  - split; [exact Hneg | exact (Herr Hneg)].
Defined.

Lemma negative_id_precedes_option_errors_witness :
  (-1 < 0
   /\ Options.newOpt [Options.SetOffset (-99999)] = Err ErrOutOfRange
   /\ fxSingleURL (Fixture.testServerString 200 "") PulseEndpoint (-1)
                  [Options.SetOffset (-99999)]
      = Err ErrNegativeID)
  /\ (Exists (fun id => id < 0) [3; -500]
      /\ fxMultiURL (Fixture.testServerString 200 "") PulseEndpoint [3; -500]
                    [Options.SetOffset (-99999)]
         = Err ErrNegativeID).
Proof.
  destruct (negative_id_precedes_option_errors
              Options.Option Options.OptionSet Options.newOpt
              (Fixture.testServerString 200 "") PulseEndpoint
              [Options.SetOffset (-99999)]) as [Hsingle Hmulti].
  assert (Hid : -1 < 0) by lia.
  assert (Hneg : Exists (fun id => id < 0) [3; -500])
    by (right; left; lia).
  split.
  - split; [exact Hid | split; [reflexivity | exact (Hsingle (-1) Hid)]].
  - split; [exact Hneg | exact (Hmulti [3; -500] Hneg)].
Defined.

Lemma Get_negative_id_makes_no_request_witness :
  (-1 < 0
   /\ fxGetGame (Fixture.testServerString 200 "") (-1) [] []
      = (Err ErrNegativeID, [])
   /\ fxGetFeed (Fixture.testServerString 200 "") (-1) [] []
      = (Err ErrNegativeID, []))
  /\ (0 <= 296456
      /\ fxSingleURL (Fixture.testServerString 200 "") PulseEndpoint 296456
                     [Options.SetFields ["name"]]
         = Ok "http://127.0.0.1/pulses/296456?fields=name")
  /\ (Options.newOpt [Options.SetOffset (-99999)] = Err ErrOutOfRange
      /\ fxGetGame (Fixture.testServerString 200 "") 296456
                   [Options.SetOffset (-99999)] []
         = (Err ErrOutOfRange, []))
  /\ (Options.newOpt [Options.SetFields ["name"]]
      = Ok (Options.build [Options.SetFields ["name"]])
      /\ Fixture.parseURL "http://127.0.0.1/games/296456?fields=name" = None
      /\ snd (fxGetGame (Fixture.testServerString 200 "") 296456
                        [Options.SetFields ["name"]] [])
         = [fxRequest "http://127.0.0.1/games/296456?fields=name"]
      /\ Fixture.parseURL "http://127.0.0.1/feeds/296456?fields=name" = None
      /\ snd (fxGetFeed (Fixture.testServerString 200 "") 296456
                        [Options.SetFields ["name"]] [])
         = [fxRequest "http://127.0.0.1/feeds/296456?fields=name"]).
Proof.
  destruct (Get_negative_id_makes_no_request
              Options.Option Options.OptionSet Options.newOpt Fixture.key
              Fixture.checkStatus Fixture.parseURL Fixture.parse Z Z
              Fixture.decodeID Fixture.decodeID
              (Fixture.testServerString 200 "") (-1) [] []) as [Hneg _].
  destruct (Get_negative_id_makes_no_request
              Options.Option Options.OptionSet Options.newOpt Fixture.key
              Fixture.checkStatus Fixture.parseURL Fixture.parse Z Z
              Fixture.decodeID Fixture.decodeID
              (Fixture.testServerString 200 "") 296456
              [Options.SetFields ["name"]] []) as [_ Hpos].
  destruct (Get_negative_id_makes_no_request
              Options.Option Options.OptionSet Options.newOpt Fixture.key
              Fixture.checkStatus Fixture.parseURL Fixture.parse Z Z
              Fixture.decodeID Fixture.decodeID
              (Fixture.testServerString 200 "") 296456
              [Options.SetOffset (-99999)] []) as [_ Hbad].
  assert (Hid : -1 < 0) by lia.
  assert (Hid' : 0 <= 296456) by lia.
  destruct (Hpos Hid') as (Hurl & _ & Hgo).
  destruct (Hbad Hid') as (_ & Herr & _).
  destruct (Hgo (Options.build [Options.SetFields ["name"]]) eq_refl)
    as (_ & _ & HtG & HtF).
  split; [split; [exact Hid | exact (Hneg Hid)]|].
  split; [split; [exact Hid' | exact (Hurl PulseEndpoint)]|].
  split; [split; [reflexivity | exact (proj1 (Herr ErrOutOfRange eq_refl))]|].
  split; [reflexivity|].
  split; [reflexivity|].
  split; [exact (HtG eq_refl)|].
  split; [reflexivity | exact (HtF eq_refl)].
Defined.

Lemma accessors_on_empty_array_witness :
  (Options.newOpt [] = Ok Options.base
   /\ (forall url, Fixture.parseURL url = None)
   /\ (forall req,
         http (Fixture.testServerString 200 Fixture.bodyEmptyArray) req
         = Ok {| StatusCode := 200; Body := Ok Fixture.bodyEmptyArray |})
   /\ Fixture.checkStatus (Fixture.testServerString 200 Fixture.bodyEmptyArray)
        {| StatusCode := 200; Body := Ok Fixture.bodyEmptyArray |} = None
   /\ Fixture.parse Fixture.bodyEmptyArray = Some (JArr []))
  /\ (0 <= 0
      /\ fst (fxGetGame (Fixture.testServerString 200 Fixture.bodyEmptyArray)
                        0 [] [])
         = Panic "index out of range"
      /\ fst (fxGetFeed (Fixture.testServerString 200 Fixture.bodyEmptyArray)
                        0 [] [])
         = Panic "index out of range")
  /\ ([0; 9999999] <> []
      /\ Forall (fun id => 0 <= id) [0; 9999999]
      /\ fst (fxGetGames (Fixture.testServerString 200 Fixture.bodyEmptyArray)
                         [0; 9999999] [] [])
         = Ok []
      /\ fst (fxGetFeeds (Fixture.testServerString 200 Fixture.bodyEmptyArray)
                         [0; 9999999] [] [])
         = Ok [])
  /\ (Options.newOpt ([] ++ [Options.optSearch "zelda"])
      = Ok (Options.build [Options.SetSearch "zelda"])
      /\ fst (fxSearchGames
                (Fixture.testServerString 200 Fixture.bodyEmptyArray)
                "zelda" [] [])
         = Ok []).
Proof.
  assert (Hurl : forall url, Fixture.parseURL url = None)
    by (intros url; reflexivity).
  assert (Hdo : forall req,
             http (Fixture.testServerString 200 Fixture.bodyEmptyArray) req
             = Ok {| StatusCode := 200; Body := Ok Fixture.bodyEmptyArray |})
    by (intros req; reflexivity).
  assert (Hzero : 0 <= 0) by lia.
  assert (Hne : [0; 9999999] <> []) by discriminate.
  assert (Hids : Forall (fun id => 0 <= id) [0; 9999999])
    by (repeat constructor; lia).
  destruct (accessors_on_empty_array
              Options.Option Options.OptionSet Options.newOpt
              Options.optSearch Fixture.key Fixture.checkStatus
              Fixture.parseURL Fixture.parse Z Z Fixture.decodeID
              Fixture.decodeID
              (Fixture.testServerString 200 Fixture.bodyEmptyArray)
              [] Options.base []
              {| StatusCode := 200; Body := Ok Fixture.bodyEmptyArray |}
              Fixture.bodyEmptyArray
              eq_refl Hurl Hdo eq_refl eq_refl eq_refl)
    as (Hget & Hlist & Hsearch).
  split; [|split; [|split]].
  - split; [reflexivity|].
    split; [exact Hurl|].
    split; [exact Hdo|].
    split; reflexivity.
  - split; [exact Hzero | exact (Hget 0 Hzero)].
  - split; [exact Hne | split; [exact Hids | exact (Hlist _ Hne Hids)]].
  - split; [reflexivity | exact (Hsearch "zelda" _ eq_refl)].
Defined.

Lemma GetGames_empty_ids_sends_request_witness :
  (Fixture.parse "" = None
   /\ Options.newOpt [] = Ok Options.base
   /\ (forall url, Fixture.parseURL url = None))
  /\ fxMultiURL (Fixture.testServerString 200 Fixture.bodyEmpty)
                GameEndpoint [] []
     = Ok "http://127.0.0.1/games/"
  /\ snd (fxGetGames (Fixture.testServerString 200 Fixture.bodyEmpty) [] [] [])
     = [fxRequest "http://127.0.0.1/games/"]
  /\ fst (fxGetGames (Fixture.testServerString 200 Fixture.bodyEmpty) [] [] [])
     = Err SyntaxError.
Proof.
  assert (Hurl : forall url, Fixture.parseURL url = None)
    by (intros url; reflexivity).
  destruct (GetGames_empty_ids_sends_request
              Options.Option Options.OptionSet Options.newOpt Fixture.key
              Fixture.checkStatus Fixture.parseURL Fixture.parse eq_refl
              Z Fixture.decodeID
              (Fixture.testServerString 200 Fixture.bodyEmpty)
              [] Options.base [] eq_refl Hurl)
    as (Hmulti & Htrace & Hresult).
  split.
  - split; [reflexivity | split; [reflexivity | exact Hurl]].
  - split; [exact Hmulti|].
    split; [exact Htrace|].
    exact (Hresult {| StatusCode := 200; Body := Ok Fixture.bodyEmpty |}
                   eq_refl eq_refl eq_refl).
Defined.

(** C7, the claim as stated fails: served the field names "logo.url" and
    "background.id" in that order, GetEndpointModel returns them in that
    order, which is not the lexical one. *)
Lemma GetEndpointModel_result_not_sorted :
  fst (fxGetEndpointModel
         (Fixture.testServerString 200 Fixture.bodyDotFields) PulseEndpoint [])
  = Ok ["logo.url"; "background.id"]
  /\ sorted_lex ["logo.url"; "background.id"] = false
  /\ sorted_lex ["background.id"; "logo.url"] = true.
Proof. repeat split. Qed.

Lemma GetEndpointModel_keeps_body_order_witness :
  (Fixture.parseURL
     (rootURL (Fixture.testServerString 200 Fixture.bodyDotFields)
      ++ PulseEndpoint ++ "meta") = None
   /\ Fixture.checkStatus
        (Fixture.testServerString 200 Fixture.bodyDotFields)
        {| StatusCode := 200; Body := Ok Fixture.bodyDotFields |} = None
   /\ Fixture.parse Fixture.bodyDotFields
      = Some (JArr (map JStr ["logo.url"; "background.id"])))
  /\ fxGetEndpointModel
       (Fixture.testServerString 200 Fixture.bodyDotFields) PulseEndpoint []
     = (Ok ["logo.url"; "background.id"],
        [fxRequest "http://127.0.0.1/pulses/meta"]).
Proof.
  split.
  - split; [reflexivity | split; reflexivity].
  - exact (GetEndpointModel_keeps_body_order
             Fixture.key Fixture.checkStatus Fixture.parseURL Fixture.parse
             (Fixture.testServerString 200 Fixture.bodyDotFields)
             PulseEndpoint []
             {| StatusCode := 200; Body := Ok Fixture.bodyDotFields |}
             Fixture.bodyDotFields ["logo.url"; "background.id"]
             eq_refl eq_refl eq_refl eq_refl eq_refl).
Defined.


Lemma limit_and_offset_validated_at_finalization_witness :
  ((0 <= 0 \/ 50 < 0)
   /\ Options.newOpt [Options.SetLimit 0] = Err ErrOutOfRange)
  /\ ((51 <= 0 \/ 50 < 51)
      /\ Options.newOpt [Options.SetLimit 51] = Err ErrOutOfRange)
  /\ ((-1 <= 0 \/ 50 < -1)
      /\ Options.newOpt [Options.SetFields ["name"]; Options.SetLimit (-1);
                         Options.SetOffset 10]
         = Err ErrOutOfRange)
  /\ (1 <= 5 <= 50
      /\ Options.newOpt [Options.SetLimit 5]
         = Ok (Options.build [Options.SetLimit 5]))
  /\ (-99999 < 0
      /\ Options.newOpt [Options.SetOffset (-99999)] = Err ErrOutOfRange)
  /\ (0 <= 0
      /\ Options.newOpt [Options.SetOffset 0]
         = Ok (Options.build [Options.SetOffset 0]))
  /\ (0 <= 296456
      /\ fxGetGame (Fixture.testServerString 200 Fixture.bodyEmpty) 296456
                   [Options.SetOffset (-99999)] []
         = (Err ErrOutOfRange, [])).
Proof.
  destruct limit_and_offset_validated_at_finalization
    as (Hlim_bad & Hlim_ok & Hoff_bad & Hoff_ok & Hcall).
  assert (H0 : 0 <= 0 \/ 50 < 0) by (left; lia).
  assert (H51 : 51 <= 0 \/ 50 < 51) by (right; lia).
  assert (Hm1 : -1 <= 0 \/ 50 < -1) by (left; lia).
  assert (H5 : 1 <= 5 <= 50) by lia.
  assert (Hoff : -99999 < 0) by lia.
  assert (Hz : 0 <= 0) by lia.
  assert (Hid : 0 <= 296456) by lia.
  split; [split; [exact H0 | exact (Hlim_bad [] [] 0 eq_refl H0)]|].
  split; [split; [exact H51 | exact (Hlim_bad [] [] 51 eq_refl H51)]|].
  split; [split; [exact Hm1
                 | exact (Hlim_bad [Options.SetFields ["name"]]
                                   [Options.SetOffset 10] (-1) eq_refl Hm1)]|].
  split; [split; [exact H5 | exact (Hlim_ok [] [] 5 eq_refl H5 eq_refl)]|].
  split; [split; [exact Hoff | exact (Hoff_bad [] [] (-99999) eq_refl Hoff)]|].
  split; [split; [exact Hz | exact (Hoff_ok [] [] 0 eq_refl Hz eq_refl)]|].
  split; [exact Hid|].
  destruct (Hcall Fixture.key Fixture.checkStatus Fixture.parseURL
                  Fixture.parse Z Fixture.decodeID
                  (Fixture.testServerString 200 Fixture.bodyEmpty)
                  [Options.SetOffset (-99999)] [] eq_refl) as (Hget & _ & _).
  exact (Hget 296456 Hid).
Defined.

(** ** Instances of the further properties *)

Lemma intsToCommaString_round_trip_witness :
  (intsToCommaString [296570; 714772] = intsToCommaString [296570; 714772]
   /\ [296570; 714772] = [296570; 714772])
  /\ (([] : list Z) = [] /\ intsToCommaString [] = "")
  /\ commaStringToInts "296570,714772" = Some [296570; 714772].
Proof.
  destruct (intsToCommaString_round_trip [296570; 714772])
    as (Hback & Hinj & _).
  destruct (intsToCommaString_round_trip []) as (_ & _ & Hempty).
  split; [split; [reflexivity | exact (Hinj _ eq_refl)]|].
  split; [split; [reflexivity | exact (proj2 Hempty eq_refl)]|].
  exact Hback.
Defined.

Lemma URL_builders_outcomes_witness :
  (fxSingleURL (Fixture.testServerString 200 "") PulseEndpoint (-1)
               [Options.SetLimit 5] = Err ErrNegativeID
   /\ ((-1 < 0 /\ ErrNegativeID = ErrNegativeID)
       \/ (0 <= -1 /\ Options.newOpt [Options.SetLimit 5] = Err ErrNegativeID)))
  /\ (fxSingleURL (Fixture.testServerString 200 "") PulseEndpoint 7
                  [Options.SetLimit 5] = Ok "http://127.0.0.1/pulses/7?limit=5"
      /\ 0 <= 7)
  /\ (fxMultiURL (Fixture.testServerString 200 "") PulseEndpoint [7; 8]
                 [Options.SetLimit 0] = Err ErrOutOfRange
      /\ ((Exists (fun id => id < 0) [7; 8] /\ ErrOutOfRange = ErrNegativeID)
          \/ (Forall (fun id => 0 <= id) [7; 8]
              /\ Options.newOpt [Options.SetLimit 0] = Err ErrOutOfRange)))
  /\ (fxMultiURL (Fixture.testServerString 200 "") PulseEndpoint [7; 8]
                 [Options.SetLimit 5]
      = Ok "http://127.0.0.1/pulses/7,8?limit=5"
      /\ Forall (fun id => 0 <= id) [7; 8]).
Proof.
  destruct (URL_builders_outcomes Options.Option Options.OptionSet
              Options.newOpt (Fixture.testServerString 200 "") PulseEndpoint
              [Options.SetLimit 5]) as (Hse & Hso & _ & Hmo).
  destruct (URL_builders_outcomes Options.Option Options.OptionSet
              Options.newOpt (Fixture.testServerString 200 "") PulseEndpoint
              [Options.SetLimit 0]) as (_ & _ & Hme & _).
  split; [split; [reflexivity | exact (Hse (-1) ErrNegativeID eq_refl)]|].
  split; [split; [reflexivity
                 | exact (proj1 (Hso 7 "http://127.0.0.1/pulses/7?limit=5"
                                     eq_refl))]|].
  split; [split; [reflexivity | exact (Hme [7; 8] ErrOutOfRange eq_refl)]|].
  split; [reflexivity
         | exact (proj1 (Hmo [7; 8] "http://127.0.0.1/pulses/7,8?limit=5"
                             eq_refl))].
Defined.

Lemma multiURL_injective_in_ids_witness :
  fxMultiURL (Fixture.testServerString 200 "") PulseEndpoint [7; 8]
             [Options.SetLimit 5]
  = Ok "http://127.0.0.1/pulses/7,8?limit=5"
  /\ [7; 8] = [7; 8].
Proof.
  split; [reflexivity|].
  exact (multiURL_injective_in_ids Options.Option Options.OptionSet
           Options.newOpt (Fixture.testServerString 200 "") PulseEndpoint
           [7; 8] [7; 8] [Options.SetLimit 5]
           "http://127.0.0.1/pulses/7,8?limit=5" eq_refl eq_refl).
Defined.

Lemma singleURL_injective_on_declared_endpoints_witness :
  In PulseEndpoint endpoints
  /\ fxSingleURL (Fixture.testServerString 200 "") PulseEndpoint 7
                 [Options.SetLimit 5]
     = Ok "http://127.0.0.1/pulses/7?limit=5"
  /\ (PulseEndpoint = PulseEndpoint /\ 7 = 7).
Proof.
  assert (Hin : In PulseEndpoint endpoints)
    by (unfold endpoints; repeat (try (left; reflexivity); right)).
  split; [exact Hin|].
  split; [reflexivity|].
  exact (singleURL_injective_on_declared_endpoints
           Options.Option Options.OptionSet Options.newOpt
           (Fixture.testServerString 200 "") PulseEndpoint PulseEndpoint 7 7
           [Options.SetLimit 5] "http://127.0.0.1/pulses/7?limit=5"
           Hin Hin eq_refl eq_refl).
Defined.

Lemma NewClient_URLs_keep_base_and_endpoint_witness :
  (In GameEndpoint endpoints
   /\ Options.newOpt [Options.SetLimit 5]
      = Ok (Options.build [Options.SetLimit 5]))
  /\ (0 <= 296456
      /\ fxSingleURL (NewClient (http Sample.offline)) GameEndpoint 296456
                     [Options.SetLimit 5]
         = Ok "https://api-2445582011268.apicast.io/games/296456?limit=5")
  /\ (Forall (fun id => 0 <= id) [7; 8]
      /\ fxMultiURL (NewClient (http Sample.offline)) GameEndpoint [7; 8]
                    [Options.SetLimit 5]
         = Ok "https://api-2445582011268.apicast.io/games/7,8?limit=5")
  /\ (Options.newOpt ([Options.SetLimit 5] ++ [Options.optSearch "zelda"])
      = Ok (Options.build [Options.SetLimit 5; Options.SetSearch "zelda"])
      /\ searchURL Options.Option Options.OptionSet Options.newOpt
                   Options.optSearch (NewClient (http Sample.offline))
                   GameEndpoint "zelda" [Options.SetLimit 5]
         = Ok "https://api-2445582011268.apicast.io/games/?limit=5&search=zelda").
Proof.
  assert (Hin : In GameEndpoint endpoints)
    by (unfold endpoints; repeat (try (left; reflexivity); right)).
  assert (Hid : 0 <= 296456) by lia.
  assert (Hids : Forall (fun id => 0 <= id) [7; 8])
    by (repeat constructor; lia).
  destruct (NewClient_URLs_keep_base_and_endpoint
              Options.Option Options.OptionSet Options.newOpt
              Options.optSearch (http Sample.offline) GameEndpoint
              [Options.SetLimit 5] (Options.build [Options.SetLimit 5])
              Hin eq_refl) as (Hs & Hm & Hq).
  split; [split; [exact Hin | reflexivity]|].
  split; [split; [exact Hid | exact (Hs 296456 Hid)]|].
  split; [split; [exact Hids | exact (Hm [7; 8] Hids)]|].
  split; [reflexivity | exact (Hq "zelda" _ eq_refl)].
Defined.

Lemma endpoints_are_distinct_paths_witness :
  In GameEndpoint endpoints
  /\ contains space GameEndpoint = false
  /\ last_byte GameEndpoint = Some "/"%char.
Proof.
  assert (Hin : In GameEndpoint endpoints)
    by (unfold endpoints; repeat (try (left; reflexivity); right)).
  destruct endpoints_are_distinct_paths as (_ & _ & Hall & _).
  destruct (Hall GameEndpoint Hin) as (Hsp & _ & Hlast).
  split; [exact Hin|].
  split; [exact Hsp|].
  destruct Hlast as [Heq | Hlast]; [discriminate Heq | exact Hlast].
Defined.

Lemma get_reports_first_failure_witness :
  (Sample.rejectURL "http://127.0.0.1/games/7" = Some (LibError "url")
   /\ get Fixture.key Fixture.checkStatus Sample.rejectURL Sample.parse
          (Fixture.testServerString 200 Fixture.bodyEmptyArray)
          "http://127.0.0.1/games/7" (decode_slice Fixture.decodeID) []
      = (Err (LibError "url"), []))
  /\ (http Sample.offline (fxRequest "http://127.0.0.1/games/7")
      = Err (LibError "offline")
      /\ get Fixture.key Fixture.checkStatus Fixture.parseURL Sample.parse
             Sample.offline "http://127.0.0.1/games/7"
             (decode_slice Fixture.decodeID) []
         = (Err (LibError "offline"), [fxRequest "http://127.0.0.1/games/7"]))
  /\ (Fixture.checkStatus (Fixture.testServerString 500 Fixture.bodyOneGame)
        {| StatusCode := 500; Body := Ok Fixture.bodyOneGame |}
      = Some (LibError "status")
      /\ get Fixture.key Fixture.checkStatus Fixture.parseURL Sample.parse
             (Fixture.testServerString 500 Fixture.bodyOneGame)
             "http://127.0.0.1/games/7" (decode_slice Fixture.decodeID) []
         = (Err (LibError "status"), [fxRequest "http://127.0.0.1/games/7"]))
  /\ (Body {| StatusCode := 200; Body := Err (LibError "read") |}
      = Err (LibError "read")
      /\ get Fixture.key Fixture.checkStatus Fixture.parseURL Sample.parse
             Sample.brokenBody "http://127.0.0.1/games/7"
             (decode_slice Fixture.decodeID) []
         = (Err (LibError "read"), [fxRequest "http://127.0.0.1/games/7"]))
  /\ (Body {| StatusCode := 200; Body := Ok Fixture.bodyOneGame |}
      = Ok Fixture.bodyOneGame
      /\ get Fixture.key Fixture.checkStatus Fixture.parseURL Sample.parse
             (Fixture.testServerString 200 Fixture.bodyOneGame)
             "http://127.0.0.1/games/7" (decode_slice Fixture.decodeID) []
         = (Ok [296456], [fxRequest "http://127.0.0.1/games/7"])).
Proof.
  destruct (get_reports_first_failure Fixture.key Fixture.checkStatus
              Sample.rejectURL Sample.parse
              (Fixture.testServerString 200 Fixture.bodyEmptyArray)
              "http://127.0.0.1/games/7" (decode_slice Fixture.decodeID) [])
    as (Hurl & _).
  destruct (get_reports_first_failure Fixture.key Fixture.checkStatus
              Fixture.parseURL Sample.parse Sample.offline
              "http://127.0.0.1/games/7" (decode_slice Fixture.decodeID) [])
    as (_ & Hoff).
  destruct (get_reports_first_failure Fixture.key Fixture.checkStatus
              Fixture.parseURL Sample.parse
              (Fixture.testServerString 500 Fixture.bodyOneGame)
              "http://127.0.0.1/games/7" (decode_slice Fixture.decodeID) [])
    as (_ & Hstatus).
  destruct (get_reports_first_failure Fixture.key Fixture.checkStatus
              Fixture.parseURL Sample.parse Sample.brokenBody
              "http://127.0.0.1/games/7" (decode_slice Fixture.decodeID) [])
    as (_ & Hread).
  destruct (get_reports_first_failure Fixture.key Fixture.checkStatus
              Fixture.parseURL Sample.parse
              (Fixture.testServerString 200 Fixture.bodyOneGame)
              "http://127.0.0.1/games/7" (decode_slice Fixture.decodeID) [])
    as (_ & Hbody).
  split; [split; [reflexivity | exact (Hurl _ eq_refl)]|].
  split; [split; [reflexivity | exact (proj1 (Hoff eq_refl) _ eq_refl)]|].
  split; [split; [reflexivity
                 | exact (proj1 (proj2 (Hstatus eq_refl) _ eq_refl)
                                _ eq_refl)]|].
  split; [split; [reflexivity
                 | exact (proj1 (proj2 (proj2 (Hread eq_refl) _ eq_refl)
                                       eq_refl) _ eq_refl)]|].
  split; [reflexivity
         | exact (proj2 (proj2 (proj2 (Hbody eq_refl) _ eq_refl) eq_refl)
                        _ eq_refl)].
Defined.

Lemma Get_returns_first_element_witness :
  (0 <= 296456
   /\ Options.newOpt [Options.SetFields ["name"]]
      = Ok (Options.build [Options.SetFields ["name"]])
   /\ Fixture.parse Fixture.bodyOneGame
      = Some (JArr [JObj [("id", JNum 296456)]])
   /\ Fixture.parseURL "http://127.0.0.1/games/296456?fields=name" = None
   /\ decode_elems Fixture.decodeID [JObj [("id", JNum 296456)]]
      = Ok [296456]
   /\ fxGetGame (Fixture.testServerString 200 Fixture.bodyOneGame) 296456
                [Options.SetFields ["name"]] []
      = (Ok 296456, [fxRequest "http://127.0.0.1/games/296456?fields=name"])
   /\ fxGetFeed (Fixture.testServerString 200 Fixture.bodyOneGame) 296456
                [Options.SetFields ["name"]] []
      = (Ok 296456, [fxRequest "http://127.0.0.1/feeds/296456?fields=name"]))
  /\ (Sample.parse Sample.bodyBadGame = Some (JArr [JObj [("id", JBool true)]])
      /\ decode_elems Fixture.decodeID [JObj [("id", JBool true)]]
         = Err (UnmarshalTypeError "bool")
      /\ GetGame Options.Option Options.OptionSet Options.newOpt
                 Fixture.key Fixture.checkStatus Fixture.parseURL
                 Sample.parse Z Fixture.decodeID
                 (Fixture.testServerString 200 Sample.bodyBadGame)
                 296456 [Options.SetFields ["name"]] []
         = (Err (UnmarshalTypeError "bool"),
            [fxRequest "http://127.0.0.1/games/296456?fields=name"])
      /\ GetFeed Options.Option Options.OptionSet Options.newOpt
                 Fixture.key Fixture.checkStatus Fixture.parseURL
                 Sample.parse Z Fixture.decodeID
                 (Fixture.testServerString 200 Sample.bodyBadGame)
                 296456 [Options.SetFields ["name"]] []
         = (Err (UnmarshalTypeError "bool"),
            [fxRequest "http://127.0.0.1/feeds/296456?fields=name"])).
Proof.
  assert (Hid : 0 <= 296456) by lia.
  destruct (Get_returns_first_element
              Options.Option Options.OptionSet Options.newOpt Fixture.key
              Fixture.checkStatus Fixture.parseURL Fixture.parse Z Z
              Fixture.decodeID Fixture.decodeID
              (Fixture.testServerString 200 Fixture.bodyOneGame) 296456
              [Options.SetFields ["name"]]
              (Options.build [Options.SetFields ["name"]]) []
              {| StatusCode := 200; Body := Ok Fixture.bodyOneGame |}
              Fixture.bodyOneGame [JObj [("id", JNum 296456)]]
              Hid eq_refl eq_refl eq_refl eq_refl)
    as (HG & HF).
  destruct (Get_returns_first_element
              Options.Option Options.OptionSet Options.newOpt Fixture.key
              Fixture.checkStatus Fixture.parseURL Sample.parse Z Z
              Fixture.decodeID Fixture.decodeID
              (Fixture.testServerString 200 Sample.bodyBadGame) 296456
              [Options.SetFields ["name"]]
              (Options.build [Options.SetFields ["name"]]) []
              {| StatusCode := 200; Body := Ok Sample.bodyBadGame |}
              Sample.bodyBadGame [JObj [("id", JBool true)]]
              Hid eq_refl eq_refl eq_refl eq_refl)
    as (HGbad & HFbad).
  split.
  - split; [exact Hid|].
    split; [reflexivity|].
    split; [reflexivity|].
    split; [reflexivity|].
    split; [reflexivity|].
    split; [exact (proj1 (HG eq_refl eq_refl) 296456 [] eq_refl)
           | exact (proj1 (HF eq_refl eq_refl) 296456 [] eq_refl)].
  - split; [reflexivity|].
    split; [reflexivity|].
    split; [exact (proj2 (HGbad eq_refl eq_refl) _ eq_refl)
           | exact (proj2 (HFbad eq_refl eq_refl) _ eq_refl)].
Defined.

Lemma GetGames_one_entry_per_element_witness :
  (Forall (fun id => 0 <= id) [7; 8; 9]
   /\ Sample.parse Sample.bodyNullAndGame
      = Some (JArr [JNull; JObj [("id", JNum 7)]])
   /\ Fixture.parseURL "http://127.0.0.1/games/7,8,9" = None
   /\ fst (GetGames Options.Option Options.OptionSet Options.newOpt
                    Fixture.key Fixture.checkStatus Fixture.parseURL
                    Sample.parse Z Fixture.decodeID
                    (Fixture.testServerString 200 Sample.bodyNullAndGame)
                    [7; 8; 9] [] [])
      = Ok [None; Some 7]
   /\ fst (GetFeeds Options.Option Options.OptionSet Options.newOpt
                    Fixture.key Fixture.checkStatus Fixture.parseURL
                    Sample.parse Z Fixture.decodeID
                    (Fixture.testServerString 200 Sample.bodyNullAndGame)
                    [7; 8; 9] [] [])
      = Ok [None; Some 7])
  /\ length [@None Z; Some 7] = length [JNull; JObj [("id", JNum 7)]]
  /\ (nth_error [JNull; JObj [("id", JNum 7)]] 0 = Some JNull
      /\ nth_error [@None Z; Some 7] 0 = Some None).
Proof.
  assert (Hids : Forall (fun id => 0 <= id) [7; 8; 9])
    by (repeat constructor; lia).
  destruct (GetGames_one_entry_per_element
              Options.Option Options.OptionSet Options.newOpt Fixture.key
              Fixture.checkStatus Fixture.parseURL Sample.parse Z Z
              Fixture.decodeID Fixture.decodeID
              (Fixture.testServerString 200 Sample.bodyNullAndGame)
              [7; 8; 9] [] Options.base []
              {| StatusCode := 200; Body := Ok Sample.bodyNullAndGame |}
              Sample.bodyNullAndGame [JNull; JObj [("id", JNum 7)]]
              Hids eq_refl eq_refl eq_refl eq_refl)
    as (HG & HF).
  destruct (HG [None; Some 7] eq_refl eq_refl eq_refl) as (Hlen & Hnull).
  destruct (HF [None; Some 7] eq_refl eq_refl eq_refl) as (_ & HnullF).
  split.
  - split; [exact Hids|].
    split; [reflexivity|].
    split; [reflexivity|].
    split; reflexivity.
  - split; [exact Hlen|].
    split; [reflexivity | exact (Hnull 0%nat eq_refl)].
Defined.

Lemma GetEndpointModel_edge_bodies_witness :
  (Sample.parse "" = None
   /\ Sample.rejectURL "http://127.0.0.1/pulses/meta" = Some (LibError "url")
   /\ GetEndpointModel Fixture.key Fixture.checkStatus Sample.rejectURL
        Sample.parse (Fixture.testServerString 200 Fixture.bodyEmptyArray)
        PulseEndpoint []
      = (Err (LibError "url"), []))
  /\ (Sample.parse Fixture.bodyEmptyArray = Some (JArr [])
      /\ fst (GetEndpointModel Fixture.key Fixture.checkStatus
                Fixture.parseURL Sample.parse
                (Fixture.testServerString 200 Fixture.bodyEmptyArray)
                PulseEndpoint [])
         = Ok [])
  /\ (Sample.parse Sample.bodyNull = Some JNull
      /\ fst (GetEndpointModel Fixture.key Fixture.checkStatus
                Fixture.parseURL Sample.parse
                (Fixture.testServerString 200 Sample.bodyNull)
                PulseEndpoint [])
         = Ok [])
  /\ ((Fixture.bodyEmpty = "" \/ Sample.parse Fixture.bodyEmpty = None)
      /\ fst (GetEndpointModel Fixture.key Fixture.checkStatus
                Fixture.parseURL Sample.parse
                (Fixture.testServerString 200 Fixture.bodyEmpty)
                PulseEndpoint [])
         = Err SyntaxError)
  /\ (Sample.parse Sample.bodyObject = Some (JObj [])
      /\ fst (GetEndpointModel Fixture.key Fixture.checkStatus
                Fixture.parseURL Sample.parse
                (Fixture.testServerString 200 Sample.bodyObject)
                PulseEndpoint [])
         = Err (UnmarshalTypeError "object")).
Proof.
  destruct (GetEndpointModel_edge_bodies Fixture.key Fixture.checkStatus
              Sample.rejectURL Sample.parse eq_refl
              (Fixture.testServerString 200 Fixture.bodyEmptyArray)
              PulseEndpoint []) as (Hurl & _).
  destruct (GetEndpointModel_edge_bodies Fixture.key Fixture.checkStatus
              Fixture.parseURL Sample.parse eq_refl
              (Fixture.testServerString 200 Fixture.bodyEmptyArray)
              PulseEndpoint []) as (_ & Harr).
  destruct (GetEndpointModel_edge_bodies Fixture.key Fixture.checkStatus
              Fixture.parseURL Sample.parse eq_refl
              (Fixture.testServerString 200 Sample.bodyNull)
              PulseEndpoint []) as (_ & Hnull).
  destruct (GetEndpointModel_edge_bodies Fixture.key Fixture.checkStatus
              Fixture.parseURL Sample.parse eq_refl
              (Fixture.testServerString 200 Fixture.bodyEmpty)
              PulseEndpoint []) as (_ & Hempty).
  destruct (GetEndpointModel_edge_bodies Fixture.key Fixture.checkStatus
              Fixture.parseURL Sample.parse eq_refl
              (Fixture.testServerString 200 Sample.bodyObject)
              PulseEndpoint []) as (_ & Hobj).
  split; [split; [reflexivity
                 | split; [reflexivity | exact (Hurl _ eq_refl)]]|].
  split; [split; [reflexivity
                 | exact (proj1 (Harr _ _ eq_refl eq_refl eq_refl eq_refl)
                                eq_refl)]|].
  split; [split; [reflexivity
                 | exact (proj1 (proj2 (Hnull _ _ eq_refl eq_refl eq_refl
                                              eq_refl)) eq_refl)]|].
  split; [split; [left; reflexivity
                 | exact (proj1 (proj2 (proj2 (Hempty _ _ eq_refl eq_refl
                                                      eq_refl eq_refl)))
                                (or_introl eq_refl))]|].
  split; [reflexivity
         | exact (proj2 (proj2 (proj2 (Hobj _ _ eq_refl eq_refl eq_refl
                                            eq_refl))) [] eq_refl)].
Defined.

Lemma encodeURL_composes_witness :
  (contains space "http://127.0.0.1/games/7" = false
   /\ encodeURL {| constValue := "limit=5" |} "http://127.0.0.1/games/7"
      = "http://127.0.0.1/games/7?limit=5")
  /\ (Encode {| constValue := "" |} = ""
      /\ encodeURL {| constValue := "" |}
           (encodeURL {| constValue := "" |} "http://127.0.0.1/games/ 7")
         = encodeURL {| constValue := "" |} "http://127.0.0.1/games/ 7")
  /\ encodeURL {| constValue := "limit=5" |} ("http://127.0.0.1/ games/" ++ "7, 8")
     = "http://127.0.0.1/games/" ++ "7,8?limit=5".
Proof.
  destruct (encodeURL_composes {| constValue := "limit=5" |}
              "http://127.0.0.1/games/7" "") as (_ & Hkeep & _ & _).
  destruct (encodeURL_composes {| constValue := "" |}
              "http://127.0.0.1/games/ 7" "") as (_ & _ & Hidem & _).
  destruct (encodeURL_composes {| constValue := "limit=5" |}
              "http://127.0.0.1/ games/" "7, 8") as (Hcat & _).
  split; [split; [reflexivity | exact (Hkeep eq_refl)]|].
  split; [split; [reflexivity | exact (Hidem eq_refl)]|].
  exact Hcat.
Defined.

Lemma list_accessors_stop_on_builder_errors_witness :
  (Exists (fun id => id < 0) [3; -500]
   /\ fxGetGames (Fixture.testServerString 200 Fixture.bodyEmpty) [3; -500]
                 [Options.SetLimit 0] []
      = (Err ErrNegativeID, [])
   /\ fxGetFeeds (Fixture.testServerString 200 Fixture.bodyEmpty) [3; -500]
                 [Options.SetLimit 0] []
      = (Err ErrNegativeID, []))
  /\ (Options.newOpt ([Options.SetLimit 0] ++ [Options.optSearch "zelda"])
      = Err ErrOutOfRange
      /\ fxSearchGames (Fixture.testServerString 200 Fixture.bodyEmpty)
                       "zelda" [Options.SetLimit 0] []
         = (Err ErrOutOfRange, [])).
Proof.
  assert (Hneg : Exists (fun id => id < 0) [3; -500])
    by (right; left; lia).
  destruct (list_accessors_stop_on_builder_errors
              Options.Option Options.OptionSet Options.newOpt
              Options.optSearch Fixture.key Fixture.checkStatus
              Fixture.parseURL Fixture.parse Z Z Fixture.decodeID
              Fixture.decodeID
              (Fixture.testServerString 200 Fixture.bodyEmpty)
              [Options.SetLimit 0] []) as (Hlist & Hsearch).
  split.
  - split; [exact Hneg | exact (Hlist _ Hneg)].
  - split; [reflexivity | exact (Hsearch "zelda" _ eq_refl)].
Defined.
